(** * hopon-backend: event membership, discovery ranking and follows

    A shallow embedding of the request handlers of [app.py] and the
    properties of the membership ledger, the capacity policy, the
    discovery ranker, the haversine distance and the follow table.

    Conventions of the embedding.
    - A handler is a function from the request (path parameter, parsed
      body or query arguments), the outcome of [db.session.commit()] and
      the store, to the Flask response (body, status) and the store it
      leaves behind.
    - Tables are lists of rows in insertion order; [.first()] is the head
      of the filtered list and [db.session.delete] removes by primary key.
    - The distance calculator has two embeddings.  [haversine_km] takes
      Python floats as real numbers and is used for what holds of the
      formula itself; [math.sqrt] and [math.asin] keep their domain
      checks, and [None] in the exception monad below is the raised
      [ValueError].  [haversine_km_double] is the same function on
      binary64 numbers, with the C library's [sin], [cos], [asin] and
      [pow] as parameters, and is used where rounding decides. *)

From Stdlib Require Import PrimFloat.
From Stdlib Require Import String ZArith List Bool Lia.
From Stdlib Require Import Reals Lra Psatz.
From Stdlib Require Import Permutation Sorted.
Import ListNotations.

Local Open Scope string_scope.
Local Open Scope Z_scope.

(** ** Exceptions

    A computation that may raise: [None] is the raised exception. *)

Definition exc (A : Type) : Type := option A.

Definition ret {A : Type} (a : A) : exc A := Some a.

Definition bind {A B : Type} (m : exc A) (k : A -> exc B) : exc B :=
  match m with
  | Some a => k a
  | None => None
  end.

Notation "x <- m ;; k" := (bind m (fun x => k))
  (at level 61, m at next level, right associativity).

(** ** Geo distance calculator *)

Section GeoDefs.
Local Open Scope R_scope.

(** [math.radians]. *)
Definition radians (x : R) : R := x * (PI / 180).

(** [math.sqrt]: [ValueError] on a negative argument. *)
Definition py_sqrt (x : R) : exc R :=
  if Rle_dec 0 x then ret (sqrt x) else None.

(** [math.asin]: [ValueError] outside [-1, 1]. *)
Definition py_asin (x : R) : exc R :=
  if Rle_dec (-1) x then
    if Rle_dec x 1 then ret (asin x) else None
  else None.

(** [haversine_km], app.py lines 36-44. *)
Definition haversine_km (lat1 lon1 lat2 lon2 : R) : exc R :=
  let dlat := radians (lat2 - lat1) in
  let dlon := radians (lon2 - lon1) in
  let a := sin (dlat / 2) ^ 2
           + cos (radians lat1) * cos (radians lat2) * sin (dlon / 2) ^ 2 in
  r <- py_sqrt a ;;
  t <- py_asin r ;;
  let c := 2 * t in
  let R := 6371.0 in
  ret (R * c).

(** The term [a] of line 41, named for the statements about it. *)
Definition hav_a (lat1 lon1 lat2 lon2 : R) : R :=
  sin (radians (lat2 - lat1) / 2) ^ 2
  + cos (radians lat1) * cos (radians lat2) * sin (radians (lon2 - lon1) / 2) ^ 2.

End GeoDefs.

(** ** Data model *)

(** Modelled from the spec: the [Event] model of models.py (section 3 of
    the spec), which is imported by app.py but is not part of the sources. *)
Record Event := mkEvent {
  e_id : Z;
  e_name : string;
  e_sport : string;
  e_location : string;
  e_notes : option string;
  e_max_players : Z;
  e_event_date : option string;
  e_latitude : option R;
  e_longitude : option R;
  e_skill_level : option string;
  e_host_user_id : option Z;
  e_created_at : string
}.

(** Modelled from the spec: the [EventParticipant] model of models.py. *)
Record EventParticipant := mkParticipant {
  p_id : Z;
  p_event_id : Z;
  p_user_id : option Z;
  p_player_name : string;
  p_team : option string
}.

(** Modelled from the spec: the [Follow] model of models.py. *)
Record Follow := mkFollow {
  f_id : Z;
  f_follower_id : Z;
  f_followee_id : Z
}.

(** The database: one list of rows per table. *)
Record Store := mkStore {
  events : list Event;
  participants : list EventParticipant;
  follows : list Follow
}.

(** Outcome of [db.session.commit()]. *)
Inductive db_error := IntegrityError | OtherError.

Inductive commit_result :=
| Committed
| Raised (err : db_error).

(** ** Queries *)

(** [Query.first()]. *)
Definition first {A : Type} (rows : list A) : option A :=
  match rows with
  | [] => None
  | r :: _ => Some r
  end.

(** Primary key given to an inserted row: above every key in use. *)
Definition fresh_id (ids : list Z) : Z := 1 + fold_right Z.max 0 ids.

(** [Event.query.get(event_id)]; [get_or_404] aborts on [None]. *)
Definition get_event (s : Store) (event_id : Z) : option Event :=
  find (fun e => e_id e =? event_id) (events s).

Definition opt_Z_eqb (a b : option Z) : bool :=
  match a, b with
  | Some x, Some y => x =? y
  | None, None => true
  | _, _ => false
  end.

(** Rows of [event.participants]. *)
Definition event_participants (s : Store) (event_id : Z) : list EventParticipant :=
  filter (fun p => p_event_id p =? event_id) (participants s).

(** [event.participants.count()]. *)
Definition participants_count (s : Store) (event_id : Z) : Z :=
  Z.of_nat (length (event_participants s event_id)).

(** [EventParticipant.query.filter_by(event_id=.., user_id=..)]. *)
Definition membership_rows (s : Store) (event_id user_id : Z) : list EventParticipant :=
  filter (fun p => (p_event_id p =? event_id) && opt_Z_eqb (p_user_id p) (Some user_id))
         (participants s).

(** [Follow.query.filter_by(follower_id=.., followee_id=..)]. *)
Definition follow_rows (s : Store) (follower_id followee_id : Z) : list Follow :=
  filter (fun f => (f_follower_id f =? follower_id) && (f_followee_id f =? followee_id))
         (follows s).

Definition add_participant (p : EventParticipant) (s : Store) : Store :=
  mkStore (events s) (participants s ++ [p]) (follows s).

Definition delete_participant (p : EventParticipant) (s : Store) : Store :=
  mkStore (events s)
          (filter (fun q => negb (p_id q =? p_id p)) (participants s))
          (follows s).

Definition add_follow (f : Follow) (s : Store) : Store :=
  mkStore (events s) (participants s) (follows s ++ [f]).

Definition delete_follow (f : Follow) (s : Store) : Store :=
  mkStore (events s) (participants s)
          (filter (fun g => negb (f_id g =? f_id f)) (follows s)).

(** ** Responses *)

(** Modelled from the spec: [Event.to_dict()] of models.py, the event's
    fields plus the computed participant count (section 6). *)
Record EventDict := mkEventDict {
  d_event : Event;
  d_participants_count : Z
}.

Definition to_dict (s : Store) (e : Event) : EventDict :=
  mkEventDict e (participants_count s (e_id e)).

(** An item of the discovery listing: the event's dict with [distance_km]. *)
Record NearbyItem := mkItem {
  item_event : EventDict;
  distance_km : option R
}.

Inductive Body :=
| error (msg : string)
| message (msg : string)
| message_event (msg : string) (event : EventDict)
| items (out : list NearbyItem)
| not_found
| internal_error.

(** A Flask view result: the JSON body and the status code. *)
Definition Response : Type := Body * Z.

(** ** Request bodies

    The parsed JSON body of a request, with the fields the handlers read.
    An absent key and a JSON null are both [None]; identifiers are integers
    and names are strings, as the columns they are stored in. *)

Record JoinBody := mkJoinBody {
  jb_player_name : option string;
  jb_team : option (option string);
  jb_user_id : option Z
}.

Record LeaveBody := mkLeaveBody {
  lb_user_id : option Z
}.

Record FollowBody := mkFollowBody {
  fb_follower_id : option Z
}.

(** Truth value of [data.get('player_name')]: a non-empty string. *)
Definition truthy_name (name : option string) : bool :=
  match name with
  | Some n => negb (String.eqb n "")
  | None => false
  end.

(** ** Membership ledger *)

(** The guard of app.py line 123: [event.participants.count() >= event.max_players]. *)
Definition event_is_full (s : Store) (event : Event) : bool :=
  participants_count s (e_id event) >=? e_max_players event.

(** The Capacity Policy in the spec's words (section 4.2): true iff
    [currentParticipantCount < maxPlayers]. *)
Definition canJoin (currentParticipantCount maxPlayers : Z) : bool :=
  currentParticipantCount <? maxPlayers.

(** [join_event], app.py lines 109-146. *)
Definition join_event (event_id : Z) (data : option JoinBody)
    (commit : commit_result) (s : Store) : Response * Store :=
  match data with
  | None => ((error "Player name is required", 400), s)
  | Some data =>
    if negb (truthy_name (jb_player_name data)) then
      ((error "Player name is required", 400), s)
    else
      match get_event s event_id with
      | None => ((not_found, 404), s)
      | Some event =>
        let player_name :=
          match jb_player_name data with Some n => n | None => "" end in
        let team :=
          match jb_team data with Some t => t | None => Some "team_a" end in
        let user_id := jb_user_id data in
        (* Check if event is full *)
        if event_is_full s event then
          ((error "Event is full", 409), s)
        else
          (* Prevent duplicate join by same user *)
          let existing :=
            match user_id with
            | Some uid => first (membership_rows s event_id uid)
            | None => None
            end in
          match existing with
          | Some _ =>
            ((message_event "Already joined" (to_dict s event), 200), s)
          | None =>
            let participant :=
              mkParticipant (fresh_id (map p_id (participants s)))
                            event_id user_id player_name team in
            match commit with
            | Committed =>
              let s' := add_participant participant s in
              ((message_event "Successfully joined event" (to_dict s' event), 200), s')
            | Raised IntegrityError =>
              ((error "Failed to join event", 409), s)
            | Raised OtherError =>
              ((error "Failed to join event", 500), s)
            end
          end
      end
  end.

(** [leave_event], app.py lines 148-159.  An exception of the commit is
    not caught by the handler and becomes Flask's 500 response. *)
Definition leave_event (event_id : Z) (data : option LeaveBody)
    (commit : commit_result) (s : Store) : Response * Store :=
  let user_id :=
    match data with Some d => lb_user_id d | None => None end in
  match user_id with
  | None => ((error "user_id is required", 400), s)
  | Some uid =>
    match first (membership_rows s event_id uid) with
    | None => ((message "Not a participant", 200), s)
    | Some participant =>
      match commit with
      | Committed => ((message "Left event", 200), delete_participant participant s)
      | Raised _ => ((internal_error, 500), s)
      end
    end
  end.

(** ** Follows *)

(** [follow_user], app.py lines 211-224. *)
Definition follow_user (user_id : Z) (data : option FollowBody)
    (commit : commit_result) (s : Store) : Response * Store :=
  let follower_id :=
    match data with Some d => fb_follower_id d | None => None end in
  match follower_id with
  | None => ((error "follower_id is required", 400), s)
  | Some follower =>
    if follower =? user_id then
      ((error "cannot follow self", 400), s)
    else
      match first (follow_rows s follower user_id) with
      | Some _ => ((message "Already following", 200), s)
      | None =>
        match commit with
        | Committed =>
          ((message "Followed", 200),
           add_follow (mkFollow (fresh_id (map f_id (follows s))) follower user_id) s)
        | Raised _ => ((internal_error, 500), s)
        end
      end
  end.

(** [unfollow_user], app.py lines 226-236; [follower_id] is the query
    argument parsed with [type=int]. *)
Definition unfollow_user (user_id : Z) (follower_id : option Z)
    (commit : commit_result) (s : Store) : Response * Store :=
  match follower_id with
  | None => ((error "follower_id is required", 400), s)
  | Some follower =>
    match first (follow_rows s follower user_id) with
    | None => ((message "Not following", 200), s)
    | Some f =>
      match commit with
      | Committed => ((message "Unfollowed", 200), delete_follow f s)
      | Raised _ => ((internal_error, 500), s)
      end
    end
  end.

(** ** Sequences of requests *)

Inductive Request :=
| Join (event_id : Z) (data : option JoinBody) (commit : commit_result)
| Leave (event_id : Z) (data : option LeaveBody) (commit : commit_result)
| FollowUser (user_id : Z) (data : option FollowBody) (commit : commit_result)
| Unfollow (user_id : Z) (follower_id : option Z) (commit : commit_result).

Definition handle (r : Request) (s : Store) : Response * Store :=
  match r with
  | Join event_id data commit => join_event event_id data commit s
  | Leave event_id data commit => leave_event event_id data commit s
  | FollowUser user_id data commit => follow_user user_id data commit s
  | Unfollow user_id follower_id commit => unfollow_user user_id follower_id commit s
  end.

(** The store after serving the requests one after the other. *)
Fixpoint run (rs : list Request) (s : Store) : Store :=
  match rs with
  | [] => s
  | r :: rest => run rest (snd (handle r s))
  end.

(** ** Discovery ranker *)

Section DiscoveryDefs.
Local Open Scope R_scope.

(** Lines 93-95 of [nearby_events]: the distance of one event. *)
Definition event_distance (lat lng : option R) (e : Event) : exc (option R) :=
  match lat, lng, e_latitude e, e_longitude e with
  | Some la, Some ln, Some ela, Some eln =>
    d <- haversine_km la ln ela eln ;; ret (Some d)
  | _, _, _, _ => ret None
  end.

(** The [for e in events] loop, lines 92-98, with [out] as accumulator. *)
Fixpoint nearby_loop (lat lng : option R) (s : Store) (evs : list Event)
    (out : list NearbyItem) : exc (list NearbyItem) :=
  match evs with
  | [] => ret out
  | e :: rest =>
    d <- event_distance lat lng e ;;
    let item := mkItem (to_dict s e) d in
    nearby_loop lat lng s rest (out ++ [item])
  end.

(** The sort key of line 100. *)
Definition sort_key (x : NearbyItem) : R :=
  match distance_km x with
  | Some d => d
  | None => 1e9
  end.

(** [list.sort(key=..)]: a stable sort that compares keys with [<].  The
    result of a stable sort is determined by its input, so insertion from
    the right, each element placed before the first key not below its own,
    computes the list Python's sort leaves. *)
Fixpoint sort_insert {A : Type} (key : A -> R) (x : A) (l : list A) : list A :=
  match l with
  | [] => [x]
  | y :: rest =>
    if Rlt_dec (key y) (key x) then y :: sort_insert key x rest
    else x :: l
  end.

Fixpoint list_sort {A : Type} (key : A -> R) (l : list A) : list A :=
  match l with
  | [] => []
  | x :: rest => sort_insert key x (list_sort key rest)
  end.

(** [nearby_events], app.py lines 85-101; [lat] and [lng] are the query
    arguments parsed with [type=float].  An exception of the distance
    computation is not caught and becomes Flask's 500 response. *)
Definition nearby_events (lat lng : option R) (s : Store) : Response :=
  match nearby_loop lat lng s (events s) [] with
  | Some out => (items (list_sort sort_key out), 200%Z)
  | None => (internal_error, 500%Z)
  end.

End DiscoveryDefs.

(** ** Invariants of the store *)

(** Capacity: no event holds more participants than [max_players]. *)
Definition capacity_ok (s : Store) : Prop :=
  forall event_id e,
    get_event s event_id = Some e ->
    participants_count s event_id <= e_max_players e.

(** Membership: at most one row per event and user. *)
Definition membership_unique (s : Store) : Prop :=
  forall event_id user_id,
    (length (membership_rows s event_id user_id) <= 1)%nat.

(** Follows: nobody follows themselves, and at most one row per pair. *)
Definition follows_ok (s : Store) : Prop :=
  (forall f, In f (follows s) -> f_follower_id f <> f_followee_id f) /\
  (forall follower followee,
      (length (follow_rows s follower followee) <= 1)%nat).

(** ** Sample data

    One pickup game with a given capacity, and a few requests, used to
    evaluate the handlers on concrete inputs. *)

Definition pickup (max_players : Z) : Event :=
  mkEvent 1 "Pickup" "soccer" "Green Lake" None max_players None
          None None None None "2024-05-01T10:00:00".

Definition one_event (max_players : Z) : Store :=
  mkStore [pickup max_players] [] [].

Definition join_as (user_id : Z) (name : string) : JoinBody :=
  mkJoinBody (Some name) None (Some user_id).

Definition join_guest (name : string) : JoinBody :=
  mkJoinBody (Some name) None None.

Definition member (id event_id user_id : Z) (name : string) : EventParticipant :=
  mkParticipant id event_id (Some user_id) name (Some "team_a").

Definition guest (id event_id : Z) (name : string) : EventParticipant :=
  mkParticipant id event_id None name (Some "team_a").

(** An event at given coordinates, or without coordinates. *)
Definition located (id : Z) (position : option (R * R)) : Event :=
  mkEvent id "Pickup" "soccer" "Green Lake" None 10 None
          (option_map fst position) (option_map snd position)
          None None "2024-05-01T10:00:00".

(** ** Further handlers *)

(** Primary keys are unique in the participants and the follows table. *)
Definition ids_unique (s : Store) : Prop :=
  NoDup (map p_id (participants s)) /\ NoDup (map f_id (follows s)).

Definition add_event (e : Event) (s : Store) : Store :=
  mkStore (events s ++ [e]) (participants s) (follows s).

(** The parsed body of [POST /events].  The four required keys are
    [None] when absent; values have the type of their column. *)
Record CreateEventBody := mkCreateEventBody {
  ce_name : option string;
  ce_sport : option string;
  ce_location : option string;
  ce_max_players : option Z;
  ce_notes : option string;
  ce_event_date : option string;
  ce_latitude : option R;
  ce_longitude : option R;
  ce_skill_level : option string;
  ce_host_user_id : option Z
}.

Section CreateEvent.

(** [datetime.fromisoformat]: the stored timestamp, or [ValueError]. *)
Variable fromisoformat : string -> exc string.

(** Line 61: the date is parsed only when the key holds a non-empty string. *)
Definition parse_event_date (event_date : option string) : exc (option string) :=
  match event_date with
  | Some t => if String.eqb t "" then ret None
              else (x <- fromisoformat t ;; ret (Some x))
  | None => ret None
  end.

(** [create_event], app.py lines 46-77; [now] is the creation time the
    model stamps on the row. *)
Definition create_event (data : option CreateEventBody) (now : string)
    (commit : commit_result) (s : Store) : Response * Store :=
  match data with
  | None =>
    ((error "Missing required fields: name, sport, location, max_players", 400), s)
  | Some data =>
    match ce_name data, ce_sport data, ce_location data, ce_max_players data with
    | Some name, Some sport, Some location, Some max_players =>
      match parse_event_date (ce_event_date data) with
      | None => ((error "Failed to create event", 500), s)
      | Some event_date =>
        let event :=
          mkEvent (fresh_id (map e_id (events s))) name sport location
                  (ce_notes data) max_players event_date
                  (ce_latitude data) (ce_longitude data)
                  (ce_skill_level data) (ce_host_user_id data) now in
        match commit with
        | Committed =>
          let s' := add_event event s in
          ((message_event "Event created successfully" (to_dict s' event), 201), s')
        | Raised _ => ((error "Failed to create event", 500), s)
        end
      end
    | _, _, _, _ =>
      ((error "Missing required fields: name, sport, location, max_players", 400), s)
    end
  end.

End CreateEvent.

(** The body of [GET /events/<id>/participants]. *)
Inductive ParticipantsBody :=
| participants_not_found
| participants_of (event : EventDict) (rows : list EventParticipant).

(** [get_event_participants], app.py lines 161-170. *)
Definition get_event_participants (event_id : Z) (s : Store) : ParticipantsBody * Z :=
  match get_event s event_id with
  | None => (participants_not_found, 404)
  | Some event =>
    (participants_of (to_dict s event) (event_participants s event_id), 200)
  end.

(** Modelled from the spec: the [User] model of models.py. *)
Record User := mkUser {
  u_id : Z;
  u_username : string;
  u_email : string;
  u_bio : option string;
  u_gender : option string
}.

(** [EventParticipant.query.filter_by(user_id=..)]. *)
Definition user_rows (s : Store) (user_id : Z) : list EventParticipant :=
  filter (fun p => opt_Z_eqb (p_user_id p) (Some user_id)) (participants s).

(** [users_nearby], app.py lines 200-209: every user with [events_count]. *)
Definition users_nearby (users : list User) (s : Store) : list (User * Z) * Z :=
  (map (fun u => (u, Z.of_nat (length (user_rows s (u_id u))))) users, 200).

(** The body of [GET /me/events]. *)
Inductive MyEventsBody :=
| my_events_error (msg : string)
| my_events_of (joined hosted : list EventDict).

Section MyEvents.

(** The order in which Python iterates over the set built from a list of
    event ids. *)
Variable set_iter : list Z -> list Z.

(** [my_events], app.py lines 238-251; [user_id] is the query argument
    parsed with [type=int], and [not user_id] holds for a missing argument
    and for 0. *)
Definition my_events (user_id : option Z) (s : Store) : MyEventsBody * Z :=
  match user_id with
  | None => (my_events_error "user_id is required", 400)
  | Some uid =>
    if uid =? 0 then (my_events_error "user_id is required", 400)
    else
      let joined_ep := user_rows s uid in
      let joined_ids := set_iter (map p_event_id joined_ep) in
      let joined :=
        flat_map (fun eid => match get_event s eid with
                             | Some e => [to_dict s e]
                             | None => []
                             end) joined_ids in
      let hosted :=
        filter (fun e => opt_Z_eqb (e_host_user_id e) (Some uid)) (events s) in
      (my_events_of joined (map (to_dict s) hosted), 200)
  end.

End MyEvents.

(** A set holds each element of the list once. *)
Definition set_order (set_iter : list Z -> list Z) : Prop :=
  forall l, NoDup (set_iter l) /\ (forall x, In x (set_iter l) <-> In x l).

(** Every participant row belongs to an event of the table. *)
Definition refs_ok (s : Store) : Prop :=
  forall p, In p (participants s) -> exists e, get_event s (p_event_id p) = Some e.

(** ** More sample data *)

(** Ann in two events. *)
Definition two_events : Store :=
  mkStore [pickup 2; located 2 None]
          [member 1 1 5 "Ann"; member 2 2 5 "Ann"] [].

(** Users 1 and 2 following each other. *)
Definition two_follows : Store :=
  mkStore [] [] [mkFollow 1 2 1; mkFollow 2 1 2].

(** A body of [POST /events] with the required keys and a capacity. *)
Definition new_game (max_players : Z) : CreateEventBody :=
  mkCreateEventBody (Some "Evening game") (Some "basketball") (Some "IMA gym")
                    (Some max_players) None (Some "2024-06-01T18:00:00")
                    None None None (Some 5).

(** A parser that accepts every timestamp as it is written. *)
Definition accept_iso (t : string) : exc string := ret t.

(** One iteration order of a set: the order of the list, each element
    at its last occurrence. *)
Definition insertion_order (l : list Z) : list Z := nodup Z.eq_dec l.

(** ** The distance calculator on binary64 numbers *)

Section HaversineDouble.
Local Open Scope float_scope.

(** The C library's [sin], [cos], [asin] and [pow] on doubles. *)
Variables libm_sin libm_cos libm_asin : float -> float.
Variable libm_pow : float -> float -> float.

(** The wrapper CPython puts around a function of the C library
    ([math_1]): [ValueError] when the result is NaN for an argument that
    is not, or infinite for a finite argument. *)
Definition math_1 (f : float -> float) (x : float) : exc float :=
  let r := f x in
  if is_nan r && negb (is_nan x) then None
  else if is_infinity r && is_finite x then None
  else ret r.

Definition math_sin : float -> exc float := math_1 libm_sin.
Definition math_cos : float -> exc float := math_1 libm_cos.
Definition math_asin : float -> exc float := math_1 libm_asin.
Definition math_sqrt : float -> exc float := math_1 PrimFloat.sqrt.

(** [math.radians]: [x * (pi / 180.0)] with the double nearest to pi. *)
Definition math_radians (x : float) : float :=
  x * (0x1.921fb54442d18p+1 / 180).

(** [x ** 2] on a float ([float_pow] with the exponent 2.0): the special
    cases CPython decides itself, then [pow] on the absolute value;
    [OverflowError] when the result overflows. *)
Definition float_pow2 (x : float) : exc float :=
  if is_nan x then ret x
  else if is_infinity x then ret infinity
  else if x =? 0 then ret 0
  else
    let v := abs x in
    if v =? 1 then ret 1
    else
      let r := libm_pow v 2 in
      if is_infinity r then None else ret r.

(** [haversine_km], app.py lines 36-44, in double arithmetic. *)
Definition haversine_km_double (lat1 lon1 lat2 lon2 : float) : exc float :=
  let dlat := math_radians (lat2 - lat1) in
  let dlon := math_radians (lon2 - lon1) in
  s1 <- math_sin (dlat / 2) ;;
  p1 <- float_pow2 s1 ;;
  c1 <- math_cos (math_radians lat1) ;;
  c2 <- math_cos (math_radians lat2) ;;
  s2 <- math_sin (dlon / 2) ;;
  p2 <- float_pow2 s2 ;;
  let a := p1 + c1 * c2 * p2 in
  r <- math_sqrt a ;;
  t <- math_asin r ;;
  let c := 2 * t in
  let R := 6371 in
  ret (R * c).

End HaversineDouble.

(** ** Follow requests with the follower id as the JSON body holds it *)

(** The [follower_id] of the body: a JSON integer, or a JSON string that
    spells an integer in decimal. *)
Inductive FollowerId :=
| id_number (z : Z)
| id_string (z : Z).

(** Python's [follower_id == user_id] against the integer of the route:
    a string never equals an integer. *)
Definition py_eq_int (v : FollowerId) (n : Z) : bool :=
  match v with
  | id_number z => z =? n
  | id_string _ => false
  end.

(** The integer an integer column of SQLite holds for the value, in a
    comparison and in a stored row: a string that spells an integer is
    converted to it. *)
Definition column_int (v : FollowerId) : Z :=
  match v with
  | id_number z => z
  | id_string z => z
  end.

(** [follow_user], app.py lines 211-224, on such a follower id. *)
Definition follow_user_json (user_id : Z) (follower_id : option FollowerId)
    (commit : commit_result) (s : Store) : Response * Store :=
  match follower_id with
  | None => ((error "follower_id is required", 400), s)
  | Some v =>
    if py_eq_int v user_id then
      ((error "cannot follow self", 400), s)
    else
      let follower := column_int v in
      match first (follow_rows s follower user_id) with
      | Some _ => ((message "Already following", 200), s)
      | None =>
        match commit with
        | Committed =>
          ((message "Followed", 200),
           add_follow (mkFollow (fresh_id (map f_id (follows s))) follower user_id) s)
        | Raised _ => ((internal_error, 500), s)
        end
      end
  end.

(** * Properties *)

(** ** Geo distance calculator *)

Section GeoFacts.
Local Open Scope R_scope.

Lemma sin_half_sq (u : R) : sin (u / 2) ^ 2 = (1 - cos u) / 2.
Proof.
  replace u with (2 * (u / 2)) at 2 by lra.
  rewrite cos_2a_sin. lra.
Qed.

Lemma radians_minus (x y : R) : radians (x - y) = radians x - radians y.
Proof. unfold radians. lra. Qed.

(** The term lies in [0, 1]: twice the term is
    [1 - sin x sin y - t cos x cos y] with [t] a cosine, and both
    [2 - 2 (sin x sin y + t cos x cos y)] and its mirror are sums of squares. *)
Lemma hav_a_range (lat1 lon1 lat2 lon2 : R) :
  0 <= hav_a lat1 lon1 lat2 lon2 <= 1.
Proof.
  unfold hav_a.
  rewrite !sin_half_sq, radians_minus, cos_minus.
  set (t := cos (radians (lon2 - lon1))).
  assert (Ht : -1 <= t <= 1) by apply COS_bound.
  pose proof (sin2_cos2 (radians lat1)) as Hx.
  pose proof (sin2_cos2 (radians lat2)) as Hy.
  unfold Rsqr in Hx, Hy.
  set (sx := sin (radians lat1)) in *. set (cx := cos (radians lat1)) in *.
  set (sy := sin (radians lat2)) in *. set (cy := cos (radians lat2)) in *.
  assert (Ht2 : 0 <= (1 - t * t) * (cy * cy)).
  { apply Rmult_le_pos; nra. }
  split.
  - pose proof (pow2_ge_0 (sx - sy)). pose proof (pow2_ge_0 (cx - t * cy)). nra.
  - pose proof (pow2_ge_0 (sx + sy)). pose proof (pow2_ge_0 (cx + t * cy)). nra.
Qed.

Lemma hav_a_sym (lat1 lon1 lat2 lon2 : R) :
  hav_a lat1 lon1 lat2 lon2 = hav_a lat2 lon2 lat1 lon1.
Proof.
  unfold hav_a.
  rewrite !sin_half_sq.
  replace (radians (lat1 - lat2)) with (- radians (lat2 - lat1))
    by (unfold radians; lra).
  replace (radians (lon1 - lon2)) with (- radians (lon2 - lon1))
    by (unfold radians; lra).
  rewrite !cos_neg. ring.
Qed.

Lemma py_sqrt_ok (x : R) : 0 <= x -> py_sqrt x = Some (sqrt x).
Proof.
  intros Hx. unfold py_sqrt, ret.
  destruct (Rle_dec 0 x); [reflexivity | contradiction].
Qed.

Lemma py_asin_ok (x : R) : -1 <= x <= 1 -> py_asin x = Some (asin x).
Proof.
  intros [Hlo Hhi]. unfold py_asin, ret.
  destruct (Rle_dec (-1) x); [ | contradiction].
  destruct (Rle_dec x 1); [reflexivity | contradiction].
Qed.

Lemma sqrt_unit (x : R) : 0 <= x <= 1 -> -1 <= sqrt x <= 1.
Proof.
  intros [Hlo Hhi]. split.
  - pose proof (sqrt_pos x). lra.
  - rewrite <- sqrt_1. apply sqrt_le_1_alt. exact Hhi.
Qed.

(** Over real numbers the term is in the domain of [sqrt] and its root in
    the domain of [asin]: the value of the function in closed form. *)
Lemma haversine_km_value (lat1 lon1 lat2 lon2 : R) :
  haversine_km lat1 lon1 lat2 lon2
  = Some (6371.0 * (2 * asin (sqrt (hav_a lat1 lon1 lat2 lon2)))).
Proof.
  unfold haversine_km. cbv zeta. fold (hav_a lat1 lon1 lat2 lon2).
  pose proof (hav_a_range lat1 lon1 lat2 lon2) as Ha.
  rewrite py_sqrt_ok by apply Ha. cbn [bind].
  rewrite py_asin_ok by (apply sqrt_unit; exact Ha). cbn [bind].
  reflexivity.
Qed.

Lemma haversine_km_self (lat lon : R) : haversine_km lat lon lat lon = Some 0.
Proof.
  rewrite haversine_km_value. f_equal.
  assert (Ha : hav_a lat lon lat lon = 0).
  { unfold hav_a. rewrite !Rminus_diag.
    replace (radians 0 / 2) with 0 by (unfold radians; lra).
    rewrite sin_0. ring. }
  rewrite Ha, sqrt_0, asin_0. ring.
Qed.

(** C6: the distance is symmetric in its two points, [distance(A, B) =
    distance(B, A)], and the distance of a point to itself is [0]. *)
Theorem haversine_symmetric_and_zero :
  (forall lat1 lon1 lat2 lon2 : R,
      haversine_km lat1 lon1 lat2 lon2 = haversine_km lat2 lon2 lat1 lon1) /\
  (forall lat lon : R, haversine_km lat lon lat lon = Some 0).
Proof.
  split.
  - intros. rewrite !haversine_km_value.
    rewrite (hav_a_sym lat1 lon1 lat2 lon2). reflexivity.
  - apply haversine_km_self.
Qed.

End GeoFacts.

(** ** Store lemmas *)

Lemma get_event_id (s : Store) (event_id : Z) (e : Event) :
  get_event s event_id = Some e -> e_id e = event_id.
Proof.
  unfold get_event. intros H.
  apply find_some in H. destruct H as [_ H].
  apply Z.eqb_eq in H. exact H.
Qed.

Lemma first_nil {A : Type} (l : list A) : first l = None <-> l = [].
Proof. destruct l; simpl; split; congruence. Qed.

Lemma filter_filter_length {A : Type} (f g : A -> bool) (l : list A) :
  (length (filter f (filter g l)) <= length (filter f l))%nat.
Proof.
  induction l as [| x l IH]; simpl; [lia | ].
  destruct (g x); simpl; destruct (f x); simpl; lia.
Qed.

Lemma participants_count_add (p : EventParticipant) (s : Store) (event_id : Z) :
  participants_count (add_participant p s) event_id
  = participants_count s event_id + (if p_event_id p =? event_id then 1 else 0).
Proof.
  unfold participants_count, event_participants, add_participant. simpl.
  rewrite filter_app, length_app, Nat2Z.inj_add. simpl.
  destruct (p_event_id p =? event_id); simpl; lia.
Qed.

Lemma participants_count_delete (p : EventParticipant) (s : Store) (event_id : Z) :
  participants_count (delete_participant p s) event_id <= participants_count s event_id.
Proof.
  unfold participants_count, event_participants, delete_participant. simpl.
  apply Nat2Z.inj_le. apply filter_filter_length.
Qed.

Lemma membership_rows_add (p : EventParticipant) (s : Store) (event_id user_id : Z) :
  membership_rows (add_participant p s) event_id user_id
  = (membership_rows s event_id user_id
     ++ (if (p_event_id p =? event_id) && opt_Z_eqb (p_user_id p) (Some user_id)
         then [p] else []))%list.
Proof.
  unfold membership_rows, add_participant. simpl.
  rewrite filter_app. reflexivity.
Qed.

Lemma membership_rows_delete (p : EventParticipant) (s : Store) (event_id user_id : Z) :
  (length (membership_rows (delete_participant p s) event_id user_id)
   <= length (membership_rows s event_id user_id))%nat.
Proof.
  unfold membership_rows, delete_participant. simpl.
  apply filter_filter_length.
Qed.

Lemma membership_rows_in (s : Store) (event_id user_id : Z) (p : EventParticipant) :
  In p (membership_rows s event_id user_id) <->
  In p (participants s) /\ p_event_id p = event_id /\ p_user_id p = Some user_id.
Proof.
  unfold membership_rows. rewrite filter_In, andb_true_iff, Z.eqb_eq.
  unfold opt_Z_eqb. destruct (p_user_id p) as [u |].
  - rewrite Z.eqb_eq. intuition congruence.
  - intuition congruence.
Qed.

Lemma truthy_name_some (name : option string) :
  truthy_name name = true <-> exists n, name = Some n /\ n <> "".
Proof.
  unfold truthy_name. destruct name as [n |].
  - rewrite negb_true_iff. split.
    + intros H. exists n. split; [reflexivity | ].
      intros ->. discriminate.
    + intros [n' [[= <-] Hn]]. apply String.eqb_neq. exact Hn.
  - split; [discriminate | intros [n [H _]]; discriminate].
Qed.

Lemma event_is_full_iff (s : Store) (e : Event) :
  event_is_full s e = true <-> e_max_players e <= participants_count s (e_id e).
Proof. unfold event_is_full. rewrite Z.geb_le. reflexivity. Qed.

Lemma event_is_full_canJoin (s : Store) (e : Event) :
  event_is_full s e = negb (canJoin (participants_count s (e_id e)) (e_max_players e)).
Proof.
  unfold event_is_full, canJoin.
  rewrite Z.geb_leb, Z.ltb_antisym, negb_involutive. reflexivity.
Qed.

(** ** What a join does to the store

    Either nothing, or one row is appended for an event that had room and,
    when the request names a user, no row of that user. *)
Lemma join_event_effect (event_id : Z) (data : option JoinBody)
    (commit : commit_result) (s : Store) :
  snd (join_event event_id data commit s) = s \/
  exists d e p,
    data = Some d /\
    get_event s event_id = Some e /\
    participants_count s event_id < e_max_players e /\
    (forall uid, jb_user_id d = Some uid -> membership_rows s event_id uid = []) /\
    p_event_id p = event_id /\
    p_user_id p = jb_user_id d /\
    snd (join_event event_id data commit s) = add_participant p s.
Proof.
  unfold join_event.
  destruct data as [d |]; [ | left; reflexivity].
  destruct (truthy_name (jb_player_name d)); simpl; [ | left; reflexivity].
  destruct (get_event s event_id) as [e |] eqn:He; [ | left; reflexivity].
  pose proof (get_event_id _ _ _ He) as Hid.
  destruct (event_is_full s e) eqn:Hfull; [left; reflexivity | ].
  assert (Hroom : participants_count s event_id < e_max_players e).
  { destruct (Z.lt_ge_cases (participants_count s event_id) (e_max_players e)) as [H | H];
      [exact H | ].
    rewrite <- Hid in H at 1. apply event_is_full_iff in H. congruence. }
  destruct (jb_user_id d) as [uid |] eqn:Huid.
  - destruct (first (membership_rows s event_id uid)) eqn:Hfirst; [left; reflexivity | ].
    apply first_nil in Hfirst.
    destruct commit as [| [|]]; try (left; reflexivity).
    right. eexists d, e, _. simpl.
    repeat split; try reflexivity; try assumption; try (symmetry; assumption).
    intros uid' Heq. rewrite Huid in Heq. injection Heq as <-. exact Hfirst.
  - destruct commit as [| [|]]; try (left; reflexivity).
    right. eexists d, e, _. simpl.
    repeat split; try reflexivity; try assumption; try (symmetry; assumption).
    intros uid' Heq. rewrite Huid in Heq. discriminate Heq.
Qed.

Lemma leave_event_effect (event_id : Z) (data : option LeaveBody)
    (commit : commit_result) (s : Store) :
  snd (leave_event event_id data commit s) = s \/
  exists p, snd (leave_event event_id data commit s) = delete_participant p s.
Proof.
  unfold leave_event.
  destruct (match data with Some d => lb_user_id d | None => None end) as [uid |];
    [ | left; reflexivity].
  destruct (first (membership_rows s event_id uid)) as [p |]; [ | left; reflexivity].
  destruct commit; [right; exists p | left]; reflexivity.
Qed.

(** No handler of the sequence touches the events table. *)
Lemma handle_events (r : Request) (s : Store) :
  events (snd (handle r s)) = events s.
Proof.
  destruct r as [eid d c | eid d c | uid d c | uid fid c]; simpl.
  - destruct (join_event_effect eid d c s) as [-> | (? & ? & ? & _ & _ & _ & _ & _ & _ & ->)];
      reflexivity.
  - destruct (leave_event_effect eid d c s) as [-> | [p ->]]; reflexivity.
  - unfold follow_user.
    destruct (match d with Some d0 => fb_follower_id d0 | None => None end); [ | reflexivity].
    destruct (_ =? _); [reflexivity | ].
    destruct (first _); [reflexivity | ].
    destruct c; reflexivity.
  - unfold unfollow_user.
    destruct fid; [ | reflexivity].
    destruct (first _); [ | reflexivity].
    destruct c; reflexivity.
Qed.

(** The follow handlers leave the participants alone. *)
Lemma follow_user_participants (user_id : Z) (data : option FollowBody)
    (commit : commit_result) (s : Store) :
  participants (snd (follow_user user_id data commit s)) = participants s.
Proof.
  unfold follow_user.
  destruct (match data with Some d => fb_follower_id d | None => None end); [ | reflexivity].
  destruct (_ =? _); [reflexivity | ].
  destruct (first _); [reflexivity | ].
  destruct commit; reflexivity.
Qed.

Lemma unfollow_user_participants (user_id : Z) (follower_id : option Z)
    (commit : commit_result) (s : Store) :
  participants (snd (unfollow_user user_id follower_id commit s)) = participants s.
Proof.
  unfold unfollow_user.
  destruct follower_id; [ | reflexivity].
  destruct (first _); [ | reflexivity].
  destruct commit; reflexivity.
Qed.

Lemma get_event_same_events (s s' : Store) (event_id : Z) :
  events s' = events s -> get_event s' event_id = get_event s event_id.
Proof. unfold get_event. intros ->. reflexivity. Qed.

Lemma participants_count_same (s s' : Store) (event_id : Z) :
  participants s' = participants s ->
  participants_count s' event_id = participants_count s event_id.
Proof. unfold participants_count, event_participants. intros ->. reflexivity. Qed.

Lemma membership_rows_same (s s' : Store) (event_id user_id : Z) :
  participants s' = participants s ->
  membership_rows s' event_id user_id = membership_rows s event_id user_id.
Proof. unfold membership_rows. intros ->. reflexivity. Qed.

(** ** Preservation of the invariants by one request *)

Lemma handle_capacity_ok (r : Request) (s : Store) :
  capacity_ok s -> capacity_ok (snd (handle r s)).
Proof.
  intros Hinv eid' e' Hget.
  rewrite (get_event_same_events s) in Hget by apply handle_events.
  specialize (Hinv eid' e' Hget).
  destruct r as [eid d c | eid d c | uid d c | uid fid c]; simpl in *.
  - destruct (join_event_effect eid d c s)
      as [-> | (d0 & e & p & _ & He & Hroom & _ & Hpe & _ & ->)]; [exact Hinv | ].
    rewrite participants_count_add, Hpe.
    destruct (eid =? eid') eqn:Heq; [ | lia].
    apply Z.eqb_eq in Heq. subst eid'.
    rewrite He in Hget. injection Hget as <-. lia.
  - destruct (leave_event_effect eid d c s) as [-> | [p ->]]; [exact Hinv | ].
    pose proof (participants_count_delete p s eid'). lia.
  - rewrite (participants_count_same s) by apply follow_user_participants. exact Hinv.
  - rewrite (participants_count_same s) by apply unfollow_user_participants. exact Hinv.
Qed.

Lemma handle_membership_unique (r : Request) (s : Store) :
  membership_unique s -> membership_unique (snd (handle r s)).
Proof.
  intros Hinv eid' uid'. specialize (Hinv eid' uid').
  destruct r as [eid d c | eid d c | uid d c | uid fid c]; simpl in *.
  - destruct (join_event_effect eid d c s)
      as [-> | (d0 & e & p & _ & _ & _ & Hnew & Hpe & Hpu & ->)]; [exact Hinv | ].
    rewrite membership_rows_add, length_app, Hpe, Hpu.
    destruct ((eid =? eid') && opt_Z_eqb (jb_user_id d0) (Some uid')) eqn:Heq;
      simpl; [ | lia].
    apply andb_true_iff in Heq. destruct Heq as [He Hu].
    apply Z.eqb_eq in He. subst eid'.
    unfold opt_Z_eqb in Hu. destruct (jb_user_id d0) as [u |] eqn:Hd0; [ | discriminate].
    apply Z.eqb_eq in Hu. subst u.
    rewrite (Hnew uid' eq_refl). simpl. lia.
  - destruct (leave_event_effect eid d c s) as [-> | [p ->]]; [exact Hinv | ].
    pose proof (membership_rows_delete p s eid' uid'). lia.
  - rewrite (membership_rows_same s) by apply follow_user_participants. exact Hinv.
  - rewrite (membership_rows_same s) by apply unfollow_user_participants. exact Hinv.
Qed.

(** An invariant kept by every request is kept by every sequence. *)
Lemma run_invariant (P : Store -> Prop) :
  (forall r s, P s -> P (snd (handle r s))) ->
  forall rs s, P s -> P (run rs s).
Proof.
  intros Hstep rs. induction rs as [| r rs IH]; intros s Hs; simpl.
  - exact Hs.
  - apply IH. apply Hstep. exact Hs.
Qed.

(** A valid join request on an existing event, unfolded up to the
    capacity guard. *)
Lemma join_event_valid (event_id : Z) (d : JoinBody) (commit : commit_result)
    (s : Store) (e : Event) :
  truthy_name (jb_player_name d) = true ->
  get_event s event_id = Some e ->
  join_event event_id (Some d) commit s =
  if event_is_full s e then ((error "Event is full", 409), s)
  else
    match match jb_user_id d with
          | Some uid => first (membership_rows s event_id uid)
          | None => None
          end with
    | Some _ => ((message_event "Already joined" (to_dict s e), 200), s)
    | None =>
      let participant :=
        mkParticipant (fresh_id (map p_id (participants s))) event_id (jb_user_id d)
                      match jb_player_name d with Some n => n | None => "" end
                      match jb_team d with Some t => t | None => Some "team_a" end in
      match commit with
      | Committed =>
        ((message_event "Successfully joined event"
                        (to_dict (add_participant participant s) e), 200),
         add_participant participant s)
      | Raised IntegrityError => ((error "Failed to join event", 409), s)
      | Raised OtherError => ((error "Failed to join event", 500), s)
      end
    end.
Proof.
  intros Hname Hget. unfold join_event.
  rewrite Hname, Hget. reflexivity.
Qed.

(** ** Capacity policy *)

Lemma fresh_capacity_ok (s : Store) :
  participants s = [] ->
  (forall e, In e (events s) -> 0 <= e_max_players e) ->
  capacity_ok s.
Proof.
  intros Hnone Hmax event_id e Hget.
  unfold participants_count, event_participants. rewrite Hnone. simpl.
  apply Hmax. apply find_some in Hget. apply Hget.
Qed.

(** C2: the capacity invariant [countParticipants(e) <= max_players] is
    kept by every sequence of requests, so it holds after every sequence
    served from a store without participants whose events have a capacity
    of at least zero; a valid join on an existing event
    gets the Capacity error (409, 'Event is full') exactly when the
    Capacity Policy denies it, that is unless [count < max_players]; and a
    join at [count = max_players] is rejected with the store unchanged. *)
Theorem capacity_invariant :
  (forall s rs, capacity_ok s -> capacity_ok (run rs s)) /\
  (forall s rs,
      participants s = [] ->
      (forall e, In e (events s) -> 0 <= e_max_players e) ->
      capacity_ok (run rs s)) /\
  (forall count max_players, canJoin count max_players = true <-> count < max_players) /\
  (forall s event_id d commit e,
      truthy_name (jb_player_name d) = true ->
      get_event s event_id = Some e ->
      (fst (join_event event_id (Some d) commit s) = (error "Event is full", 409)
       <-> canJoin (participants_count s event_id) (e_max_players e) = false)) /\
  (forall s event_id d commit e,
      truthy_name (jb_player_name d) = true ->
      get_event s event_id = Some e ->
      participants_count s event_id = e_max_players e ->
      join_event event_id (Some d) commit s = ((error "Event is full", 409), s)).
Proof.
  split; [ | split; [ | split; [ | split]]].
  - intros s rs. apply (run_invariant capacity_ok). apply handle_capacity_ok.
  - intros s rs Hnone Hmax.
    apply (run_invariant capacity_ok); [apply handle_capacity_ok | ].
    apply fresh_capacity_ok; assumption.
  - intros. unfold canJoin. apply Z.ltb_lt.
  - intros s event_id d commit e Hname Hget.
    rewrite (join_event_valid _ _ _ _ _ Hname Hget).
    rewrite event_is_full_canJoin, (get_event_id _ _ _ Hget).
    destruct (canJoin _ _); simpl.
    + split; [ | discriminate].
      destruct (match jb_user_id d with Some _ => _ | None => _ end);
        [discriminate | ].
      destruct commit as [| [|]]; simpl; discriminate.
    + split; reflexivity.
  - intros s event_id d commit e Hname Hget Hcount.
    rewrite (join_event_valid _ _ _ _ _ Hname Hget).
    assert (Hfull : event_is_full s e = true).
    { apply event_is_full_iff. rewrite (get_event_id _ _ _ Hget). lia. }
    rewrite Hfull. reflexivity.
Qed.

(** The invariant after two joins to an event for one player, and the
    rejection of the second of them. *)
Lemma capacity_invariant_witness :
  capacity_ok (run [Join 1 (Some (join_as 5 "Ann")) Committed;
                    Join 1 (Some (join_as 6 "Bob")) Committed] (one_event 1)) /\
  (canJoin 0 1 = true <-> 0 < 1) /\
  (fst (join_event 1 (Some (join_as 6 "Bob")) Committed
          (mkStore [pickup 1] [member 1 1 5 "Ann"] []))
   = (error "Event is full", 409)
   <-> canJoin 1 1 = false) /\
  join_event 1 (Some (join_as 6 "Bob")) Committed
    (mkStore [pickup 1] [member 1 1 5 "Ann"] [])
  = ((error "Event is full", 409), mkStore [pickup 1] [member 1 1 5 "Ann"] []).
Proof.
  destruct capacity_invariant as (_ & Hrun & Hpolicy & Hiff & Hfull).
  split; [ | split; [ | split]].
  - apply Hrun; [reflexivity | ].
    intros e [<- | []]. simpl. lia.
  - apply Hpolicy.
  - apply (Hiff (mkStore [pickup 1] [member 1 1 5 "Ann"] []) 1 (join_as 6 "Bob")
                Committed (pickup 1)); reflexivity.
  - apply (Hfull _ 1 _ _ (pickup 1)); reflexivity.
Defined.

(** ** Membership ledger *)

Lemma membership_rows_nonempty (s : Store) (event_id user_id : Z) (row : EventParticipant) :
  In row (participants s) -> p_event_id row = event_id -> p_user_id row = Some user_id ->
  exists r, first (membership_rows s event_id user_id) = Some r.
Proof.
  intros Hin He Hu.
  assert (H : In row (membership_rows s event_id user_id)).
  { apply membership_rows_in. auto. }
  destruct (membership_rows s event_id user_id) as [| r rest]; [contradiction | ].
  exists r. reflexivity.
Qed.

Lemma fresh_id_above (ids : list Z) (x : Z) : In x ids -> x < fresh_id ids.
Proof.
  unfold fresh_id. induction ids as [| y ids IH]; cbn [fold_right In]; [contradiction | ].
  intros [-> | Hin]; [lia | ].
  specialize (IH Hin). lia.
Qed.

Lemma fresh_id_not_in (ids : list Z) : ~ In (fresh_id ids) ids.
Proof. intros Hin. apply fresh_id_above in Hin. lia. Qed.

(** C1, as the code has it: a join by a user who already has a row for
    the event never changes the store; the capacity guard is evaluated
    before the duplicate check, so the request succeeds (200, 'Already
    joined', with the current event state) when the event has room and
    gets the Capacity error (409) when the event is full. *)
Theorem rejoin_is_noop :
  forall s event_id uid d commit e row,
    get_event s event_id = Some e ->
    truthy_name (jb_player_name d) = true ->
    jb_user_id d = Some uid ->
    In row (participants s) ->
    p_event_id row = event_id ->
    p_user_id row = Some uid ->
    snd (join_event event_id (Some d) commit s) = s /\
    (participants_count s event_id < e_max_players e ->
     fst (join_event event_id (Some d) commit s)
     = (message_event "Already joined" (to_dict s e), 200)) /\
    (e_max_players e <= participants_count s event_id ->
     fst (join_event event_id (Some d) commit s) = (error "Event is full", 409)).
Proof.
  intros s event_id uid d commit e row Hget Hname Huid Hin Hre Hru.
  rewrite (join_event_valid _ _ _ _ _ Hname Hget), Huid.
  destruct (membership_rows_nonempty s event_id uid row Hin Hre Hru) as [r Hr].
  rewrite Hr.
  pose proof (event_is_full_iff s e) as Hfull.
  rewrite (get_event_id _ _ _ Hget) in Hfull.
  destruct (event_is_full s e); simpl.
  - split; [reflexivity | ]. split; [ | reflexivity].
    intros Hlt. assert (e_max_players e <= participants_count s event_id)
      by (apply Hfull; reflexivity). lia.
  - split; [reflexivity | ]. split; [reflexivity | ].
    intros Hge. apply Hfull in Hge. discriminate.
Qed.

(** A member of an event with room joins again. *)
Lemma rejoin_is_noop_witness :
  let s := mkStore [pickup 2] [member 1 1 5 "Ann"] [] in
  snd (join_event 1 (Some (join_as 5 "Ann")) Committed s) = s /\
  (participants_count s 1 < 2 ->
   fst (join_event 1 (Some (join_as 5 "Ann")) Committed s)
   = (message_event "Already joined" (to_dict s (pickup 2)), 200)) /\
  (2 <= participants_count s 1 ->
   fst (join_event 1 (Some (join_as 5 "Ann")) Committed s) = (error "Event is full", 409)).
Proof.
  apply (rejoin_is_noop (mkStore [pickup 2] [member 1 1 5 "Ann"] []) 1 5
           (join_as 5 "Ann") Committed (pickup 2) (member 1 1 5 "Ann")).
  - reflexivity.
  - reflexivity.
  - reflexivity.
  - simpl. left. reflexivity.
  - reflexivity.
  - reflexivity.
Defined.

(** C1 as stated fails: the only member of a full event joins again and
    is turned away with 409 'Event is full' instead of a 200. *)
Lemma rejoin_full_event_rejected :
  let s := mkStore [pickup 1] [member 1 1 5 "Ann"] [] in
  In (member 1 1 5 "Ann") (membership_rows s 1 5) /\
  participants_count s 1 = e_max_players (pickup 1) /\
  join_event 1 (Some (join_as 5 "Ann")) Committed s = ((error "Event is full", 409), s) /\
  snd (fst (join_event 1 (Some (join_as 5 "Ann")) Committed s)) <> 200.
Proof.
  simpl. repeat split.
  - left. reflexivity.
  - vm_compute. discriminate.
Qed.

(** C5: leaving an event one is not a participant of succeeds as a no-op:
    200 'Not a participant', and the store is unchanged. *)
Theorem leave_non_member_is_noop :
  forall s event_id uid commit,
    (forall p, In p (participants s) ->
               ~ (p_event_id p = event_id /\ p_user_id p = Some uid)) ->
    leave_event event_id (Some (mkLeaveBody (Some uid))) commit s
    = ((message "Not a participant", 200), s).
Proof.
  intros s event_id uid commit Hnone.
  unfold leave_event. simpl.
  destruct (membership_rows s event_id uid) as [| r rest] eqn:Hrows; [reflexivity | ].
  exfalso.
  assert (Hin : In r (membership_rows s event_id uid)) by (rewrite Hrows; left; reflexivity).
  apply membership_rows_in in Hin. destruct Hin as (Hin & He & Hu).
  apply (Hnone r Hin). split; assumption.
Qed.

(** User 6 leaves an event only user 5 has joined. *)
Lemma leave_non_member_is_noop_witness :
  let s := mkStore [pickup 2] [member 1 1 5 "Ann"] [] in
  leave_event 1 (Some (mkLeaveBody (Some 6))) Committed s
  = ((message "Not a participant", 200), s).
Proof.
  apply (leave_non_member_is_noop (mkStore [pickup 2] [member 1 1 5 "Ann"] []) 1 6 Committed).
  intros p Hin [_ Hu]. simpl in Hin. destruct Hin as [<- | []].
  simpl in Hu. discriminate Hu.
Defined.

(** A join that answers 200 for a named user leaves a row of that user. *)
Lemma join_event_ok_member (event_id uid : Z) (d : JoinBody)
    (commit : commit_result) (s : Store) (body : Body) :
  jb_user_id d = Some uid ->
  fst (join_event event_id (Some d) commit s) = (body, 200) ->
  membership_rows (snd (join_event event_id (Some d) commit s)) event_id uid <> [].
Proof.
  intros Huid. unfold join_event.
  destruct (truthy_name (jb_player_name d)); simpl; [ | discriminate].
  destruct (get_event s event_id) as [e |]; [ | discriminate].
  destruct (event_is_full s e); [discriminate | ].
  rewrite Huid.
  destruct (first (membership_rows s event_id uid)) as [r |] eqn:Hfirst.
  - intros _. simpl. intros Hnil. rewrite Hnil in Hfirst. discriminate.
  - destruct commit as [| [|]]; simpl; try discriminate.
    intros _. rewrite membership_rows_add. simpl.
    rewrite !Z.eqb_refl. simpl.
    intros Hnil. apply app_eq_nil in Hnil. destruct Hnil as [_ Hnil]. discriminate.
Qed.

Lemma fresh_membership_unique (s : Store) :
  participants s = [] -> membership_unique s.
Proof.
  intros Hnone event_id uid. unfold membership_rows. rewrite Hnone. simpl. lia.
Qed.

(** C3, as the code has it: at most one row per (event, user) after any
    sequence of requests, served from a store that has at most one or from
    a store without participants; and after a successful join of a user, a second
    join of the same user to the same event leaves the store as it is, with
    exactly one row of that user, and answers 200 'Already joined' when the
    event still has room after the first join. *)
Theorem membership_unique_invariant :
  (forall s rs, membership_unique s -> membership_unique (run rs s)) /\
  (forall s rs, participants s = [] -> membership_unique (run rs s)) /\
  (forall s event_id uid d1 d2 c1 c2 body,
      membership_unique s ->
      jb_user_id d1 = Some uid ->
      jb_user_id d2 = Some uid ->
      fst (join_event event_id (Some d1) c1 s) = (body, 200) ->
      length (membership_rows (snd (join_event event_id (Some d1) c1 s)) event_id uid) = 1%nat /\
      snd (join_event event_id (Some d2) c2 (snd (join_event event_id (Some d1) c1 s)))
      = snd (join_event event_id (Some d1) c1 s) /\
      (forall e,
          get_event s event_id = Some e ->
          truthy_name (jb_player_name d2) = true ->
          participants_count (snd (join_event event_id (Some d1) c1 s)) event_id
          < e_max_players e ->
          fst (join_event event_id (Some d2) c2 (snd (join_event event_id (Some d1) c1 s)))
          = (message_event "Already joined"
                           (to_dict (snd (join_event event_id (Some d1) c1 s)) e), 200))).
Proof.
  split; [ | split].
  - intros s rs. apply (run_invariant membership_unique). apply handle_membership_unique.
  - intros s rs Hnone.
    apply (run_invariant membership_unique); [apply handle_membership_unique | ].
    apply fresh_membership_unique. exact Hnone.
  - intros s event_id uid d1 d2 c1 c2 body Hinv Hu1 Hu2 Hok.
    pose proof (join_event_ok_member _ _ _ _ _ _ Hu1 Hok) as Hmem.
    pose proof (handle_membership_unique (Join event_id (Some d1) c1) s Hinv) as Hinv1.
    pose proof (handle_events (Join event_id (Some d1) c1) s) as Hev.
    cbn [handle] in Hinv1, Hev.
    set (s1 := snd (join_event event_id (Some d1) c1 s)) in *.
    split; [ | split].
    + specialize (Hinv1 event_id uid).
      destruct (membership_rows s1 event_id uid) as [| r [| r' rest]];
        [congruence | reflexivity | simpl in Hinv1; lia].
    + destruct (join_event_effect event_id (Some d2) c2 s1)
        as [H | (d & e & p & Hd & _ & _ & Hnew & _)]; [exact H | ].
      injection Hd as <-. specialize (Hnew uid Hu2). congruence.
    + intros e Hget Hname Hroom.
      rewrite <- (get_event_same_events s s1 event_id Hev) in Hget.
      rewrite (join_event_valid _ _ _ _ _ Hname Hget), Hu2.
      assert (Hfull : event_is_full s1 e = false).
      { destruct (event_is_full s1 e) eqn:Hf; [ | reflexivity].
        apply event_is_full_iff in Hf.
        rewrite (get_event_id _ _ _ Hget) in Hf. lia. }
      rewrite Hfull.
      destruct (membership_rows s1 event_id uid) as [| r rest]; [congruence | ].
      reflexivity.
Qed.

Lemma one_event_membership_unique (max_players : Z) :
  membership_unique (one_event max_players).
Proof. apply fresh_membership_unique. reflexivity. Qed.

(** Two joins of user 5 to an event for two players, with a leave between
    other requests. *)
Lemma membership_unique_invariant_witness :
  membership_unique (run [Join 1 (Some (join_as 5 "Ann")) Committed;
                          Join 1 (Some (join_as 5 "Ann")) Committed;
                          Leave 1 (Some (mkLeaveBody (Some 5))) Committed;
                          Join 1 (Some (join_as 5 "Ann")) Committed] (one_event 2)) /\
  length (membership_rows
            (snd (join_event 1 (Some (join_as 5 "Ann")) Committed (one_event 2))) 1 5) = 1%nat /\
  fst (join_event 1 (Some (join_as 5 "Annie")) Committed
         (snd (join_event 1 (Some (join_as 5 "Ann")) Committed (one_event 2))))
  = (message_event "Already joined"
       (to_dict (snd (join_event 1 (Some (join_as 5 "Ann")) Committed (one_event 2)))
                (pickup 2)), 200).
Proof.
  destruct membership_unique_invariant as (_ & Hrun & Htwice).
  split.
  - apply Hrun. reflexivity.
  - destruct (Htwice (one_event 2) 1 5 (join_as 5 "Ann") (join_as 5 "Annie")
                     Committed Committed
                     (message_event "Successfully joined event"
                        (to_dict (mkStore [pickup 2] [member 1 1 5 "Ann"] []) (pickup 2))))
      as (Hone & _ & Hagain).
    + apply one_event_membership_unique.
    + reflexivity.
    + reflexivity.
    + reflexivity.
    + split; [exact Hone | ].
      apply Hagain; [reflexivity | reflexivity | vm_compute; reflexivity].
Defined.

(** C3 as stated fails in its last part: on an event for one player the
    first join of user 5 succeeds and fills the event, and the second join
    of user 5 is answered 409 'Event is full', not a success. *)
Lemma second_join_full_event_rejected :
  let s1 := snd (join_event 1 (Some (join_as 5 "Ann")) Committed (one_event 1)) in
  membership_unique (one_event 1) /\
  snd (fst (join_event 1 (Some (join_as 5 "Ann")) Committed (one_event 1))) = 200 /\
  length (membership_rows s1 1 5) = 1%nat /\
  join_event 1 (Some (join_as 5 "Ann")) Committed s1 = ((error "Event is full", 409), s1).
Proof.
  simpl. split; [apply one_event_membership_unique | ].
  repeat split.
Qed.

(** C9: a join without [user_id] goes through no duplicate check: when
    the event has room and the commit goes through, it always appends a
    new row (a fresh id, no user, the given name) that counts against the
    capacity, whatever rows and names the event already has. *)
Theorem anonymous_join_adds_row :
  forall s event_id d e,
    get_event s event_id = Some e ->
    truthy_name (jb_player_name d) = true ->
    jb_user_id d = None ->
    participants_count s event_id < e_max_players e ->
    exists p,
      join_event event_id (Some d) Committed s
      = ((message_event "Successfully joined event" (to_dict (add_participant p s) e), 200),
         add_participant p s) /\
      participants (add_participant p s) = (participants s ++ [p])%list /\
      p_event_id p = event_id /\
      p_user_id p = None /\
      jb_player_name d = Some (p_player_name p) /\
      ~ In (p_id p) (map p_id (participants s)) /\
      participants_count (add_participant p s) event_id = participants_count s event_id + 1.
Proof.
  intros s event_id d e Hget Hname Huid Hroom.
  rewrite (join_event_valid _ _ _ _ _ Hname Hget), Huid.
  assert (Hfull : event_is_full s e = false).
  { destruct (event_is_full s e) eqn:Hf; [ | reflexivity].
    apply event_is_full_iff in Hf.
    rewrite (get_event_id _ _ _ Hget) in Hf. lia. }
  rewrite Hfull. cbv zeta.
  eexists. split; [reflexivity | ].
  split; [reflexivity | ]. split; [reflexivity | ]. split; [reflexivity | ].
  split; [ | split].
  - apply truthy_name_some in Hname. destruct Hname as [n [-> _]]. reflexivity.
  - apply fresh_id_not_in.
  - rewrite participants_count_add. cbn [p_event_id].
    rewrite Z.eqb_refl. reflexivity.
Qed.

(** A second guest called Sam joins an event that already has one. *)
Lemma anonymous_join_adds_row_witness :
  let s := mkStore [pickup 3] [guest 1 1 "Sam"] [] in
  exists p,
    join_event 1 (Some (join_guest "Sam")) Committed s
    = ((message_event "Successfully joined event" (to_dict (add_participant p s) (pickup 3)), 200),
       add_participant p s) /\
    participants (add_participant p s) = (participants s ++ [p])%list /\
    p_event_id p = 1 /\
    p_user_id p = None /\
    jb_player_name (join_guest "Sam") = Some (p_player_name p) /\
    ~ In (p_id p) (map p_id (participants s)) /\
    participants_count (add_participant p s) 1 = participants_count s 1 + 1.
Proof.
  apply (anonymous_join_adds_row (mkStore [pickup 3] [guest 1 1 "Sam"] []) 1
           (join_guest "Sam") (pickup 3)).
  - reflexivity.
  - reflexivity.
  - reflexivity.
  - vm_compute. reflexivity.
Defined.

(** The two guests of the same name are two rows of the event. *)
Example two_guests_same_name :
  participants (run [Join 1 (Some (join_guest "Sam")) Committed;
                     Join 1 (Some (join_guest "Sam")) Committed] (one_event 3))
  = [guest 1 1 "Sam"; guest 2 1 "Sam"].
Proof. reflexivity. Qed.

(** C10: the status of a join response is never 201; a response that
    carries the event, 'Successfully joined event' for a new row or
    'Already joined' for a repeated join, has status 200. *)
Theorem join_status_never_201 :
  forall event_id data commit s,
    snd (fst (join_event event_id data commit s)) <> 201 /\
    In (snd (fst (join_event event_id data commit s))) [200; 400; 404; 409; 500] /\
    (forall msg ev,
        fst (fst (join_event event_id data commit s)) = message_event msg ev ->
        (msg = "Successfully joined event" \/ msg = "Already joined") /\
        snd (fst (join_event event_id data commit s)) = 200).
Proof.
  intros event_id data commit s. unfold join_event.
  destruct data as [d |]; [ | simpl; intuition discriminate].
  destruct (truthy_name (jb_player_name d)); simpl; [ | intuition discriminate].
  destruct (get_event s event_id) as [e |]; [ | simpl; intuition discriminate].
  destruct (event_is_full s e); [simpl; intuition discriminate | ].
  destruct (match jb_user_id d with Some _ => _ | None => _ end).
  - simpl. split; [discriminate | ]. split; [intuition | ].
    intros msg ev H. injection H as <- _. auto.
  - destruct commit as [| [|]]; simpl; try (intuition discriminate).
    split; [discriminate | ]. split; [intuition | ].
    intros msg ev H. injection H as <- _. auto.
Qed.

(** The first join and the repeated join of user 5 both answer 200. *)
Lemma join_status_never_201_witness :
  snd (fst (join_event 1 (Some (join_as 5 "Ann")) Committed (one_event 2))) = 200 /\
  snd (fst (join_event 1 (Some (join_as 5 "Ann")) Committed
              (mkStore [pickup 2] [member 1 1 5 "Ann"] []))) = 200.
Proof.
  split.
  - apply (join_status_never_201 1 (Some (join_as 5 "Ann")) Committed (one_event 2))
      with (msg := "Successfully joined event")
           (ev := to_dict (mkStore [pickup 2] [member 1 1 5 "Ann"] []) (pickup 2)).
    reflexivity.
  - apply (join_status_never_201 1 (Some (join_as 5 "Ann")) Committed
             (mkStore [pickup 2] [member 1 1 5 "Ann"] []))
      with (msg := "Already joined")
           (ev := to_dict (mkStore [pickup 2] [member 1 1 5 "Ann"] []) (pickup 2)).
    reflexivity.
Defined.

(** ** Follows *)

Lemma follow_rows_in (s : Store) (follower followee : Z) (f : Follow) :
  In f (follow_rows s follower followee) <->
  In f (follows s) /\ f_follower_id f = follower /\ f_followee_id f = followee.
Proof.
  unfold follow_rows. rewrite filter_In, andb_true_iff, !Z.eqb_eq. reflexivity.
Qed.

(** What a follow does to the store: nothing, or one row is appended for
    a pair of distinct users that had no row. *)
Lemma follow_user_effect (user_id : Z) (data : option FollowBody)
    (commit : commit_result) (s : Store) :
  snd (follow_user user_id data commit s) = s \/
  exists f,
    f_follower_id f <> f_followee_id f /\
    follow_rows s (f_follower_id f) (f_followee_id f) = [] /\
    snd (follow_user user_id data commit s) = add_follow f s.
Proof.
  unfold follow_user.
  destruct (match data with Some d => fb_follower_id d | None => None end) as [follower |];
    [ | left; reflexivity].
  destruct (follower =? user_id) eqn:Hself; [left; reflexivity | ].
  apply Z.eqb_neq in Hself.
  destruct (first (follow_rows s follower user_id)) eqn:Hfirst; [left; reflexivity | ].
  apply first_nil in Hfirst.
  destruct commit; [ | left; reflexivity].
  right. exists (mkFollow (fresh_id (map f_id (follows s))) follower user_id).
  cbn [f_follower_id f_followee_id snd].
  split; [exact Hself | ]. split; [exact Hfirst | reflexivity].
Qed.

Lemma unfollow_user_effect (user_id : Z) (follower_id : option Z)
    (commit : commit_result) (s : Store) :
  snd (unfollow_user user_id follower_id commit s) = s \/
  exists f, snd (unfollow_user user_id follower_id commit s) = delete_follow f s.
Proof.
  unfold unfollow_user.
  destruct follower_id as [follower |]; [ | left; reflexivity].
  destruct (first (follow_rows s follower user_id)) as [f |]; [ | left; reflexivity].
  destruct commit; [right; exists f | left]; reflexivity.
Qed.

Lemma follows_ok_same (s s' : Store) :
  follows s' = follows s -> follows_ok s -> follows_ok s'.
Proof.
  unfold follows_ok, follow_rows. intros ->. exact (fun H => H).
Qed.

Lemma follows_ok_add (f : Follow) (s : Store) :
  f_follower_id f <> f_followee_id f ->
  follow_rows s (f_follower_id f) (f_followee_id f) = [] ->
  follows_ok s -> follows_ok (add_follow f s).
Proof.
  intros Hself Hnew [Hirr Huniq]. split.
  - intros g Hin. simpl in Hin. apply in_app_or in Hin.
    destruct Hin as [Hin | [<- | []]]; [apply Hirr; exact Hin | exact Hself].
  - intros a b. unfold follow_rows, add_follow. cbn [follows].
    rewrite filter_app, length_app. cbn [filter].
    destruct ((f_follower_id f =? a) && (f_followee_id f =? b)) eqn:Heq.
    + apply andb_true_iff in Heq. destruct Heq as [Ha Hb].
      apply Z.eqb_eq in Ha, Hb. subst a b.
      unfold follow_rows in Hnew. rewrite Hnew. simpl. lia.
    + specialize (Huniq a b). unfold follow_rows in Huniq. simpl. lia.
Qed.

Lemma follows_ok_delete (f : Follow) (s : Store) :
  follows_ok s -> follows_ok (delete_follow f s).
Proof.
  intros [Hirr Huniq]. split.
  - intros g Hin. simpl in Hin. apply filter_In in Hin. apply Hirr. apply Hin.
  - intros a b. specialize (Huniq a b).
    unfold follow_rows, delete_follow in *. cbn [follows].
    pose proof (filter_filter_length
                  (fun g => (f_follower_id g =? a) && (f_followee_id g =? b))
                  (fun g => negb (f_id g =? f_id f)) (follows s)).
    lia.
Qed.

Lemma handle_follows_ok (r : Request) (s : Store) :
  follows_ok s -> follows_ok (snd (handle r s)).
Proof.
  intros Hinv.
  destruct r as [eid d c | eid d c | uid d c | uid fid c]; cbn [handle].
  - destruct (join_event_effect eid d c s) as [-> | (? & ? & p & _ & _ & _ & _ & _ & _ & ->)];
      [exact Hinv | ].
    apply (follows_ok_same s); [reflexivity | exact Hinv].
  - destruct (leave_event_effect eid d c s) as [-> | [p ->]]; [exact Hinv | ].
    apply (follows_ok_same s); [reflexivity | exact Hinv].
  - destruct (follow_user_effect uid d c s) as [-> | (f & Hself & Hnew & ->)];
      [exact Hinv | ].
    apply follows_ok_add; assumption.
  - destruct (unfollow_user_effect uid fid c s) as [-> | [f ->]]; [exact Hinv | ].
    apply follows_ok_delete. exact Hinv.
Qed.

(** A follow that answers 200 leaves a row of the pair. *)
Lemma follow_user_ok_row (user_id follower : Z) (commit : commit_result)
    (s : Store) (body : Body) :
  fst (follow_user user_id (Some (mkFollowBody (Some follower))) commit s) = (body, 200) ->
  follow_rows (snd (follow_user user_id (Some (mkFollowBody (Some follower))) commit s))
              follower user_id <> [].
Proof.
  unfold follow_user. cbn [fb_follower_id].
  destruct (follower =? user_id); [discriminate | ].
  destruct (first (follow_rows s follower user_id)) as [f |] eqn:Hfirst.
  - intros _. simpl. intros Hnil. rewrite Hnil in Hfirst. discriminate.
  - destruct commit; simpl; [ | discriminate].
    intros _. unfold follow_rows, add_follow. cbn [follows].
    rewrite filter_app. cbn [filter f_follower_id f_followee_id].
    rewrite !Z.eqb_refl. simpl.
    intros Hnil. apply app_eq_nil in Hnil. destruct Hnil as [_ Hnil]. discriminate.
Qed.

Lemma fresh_follows_ok (s : Store) : follows s = [] -> follows_ok s.
Proof.
  intros Hnone. unfold follows_ok, follow_rows. rewrite Hnone. split.
  - intros f [].
  - intros a b. simpl. lia.
Qed.

(** X26: for follow requests whose follower id is an integer: after any
    sequence of requests, served from a store whose Follow rows are in
    order or from a store without Follow rows, no Follow row has
    [follower_id = followee_id] and no pair has two rows; a follow of
    oneself is answered with the validation error 400; a follow repeated
    after one that succeeded is a no-op success ('Already following') that
    leaves exactly one row of the pair; and an unfollow of a pair without a
    row is a no-op success ('Not following'). *)
Theorem follow_invariants :
  (forall s rs, follows_ok s -> follows_ok (run rs s)) /\
  (forall s rs, follows s = [] -> follows_ok (run rs s)) /\
  (forall s u commit,
      follow_user u (Some (mkFollowBody (Some u))) commit s
      = ((error "cannot follow self", 400), s)) /\
  (forall s u follower c1 c2 body,
      follows_ok s ->
      fst (follow_user u (Some (mkFollowBody (Some follower))) c1 s) = (body, 200) ->
      follow_user u (Some (mkFollowBody (Some follower))) c2
        (snd (follow_user u (Some (mkFollowBody (Some follower))) c1 s))
      = ((message "Already following", 200),
         snd (follow_user u (Some (mkFollowBody (Some follower))) c1 s)) /\
      length (follow_rows (snd (follow_user u (Some (mkFollowBody (Some follower))) c1 s))
                          follower u) = 1%nat) /\
  (forall s u follower commit,
      (forall f, In f (follows s) ->
                 ~ (f_follower_id f = follower /\ f_followee_id f = u)) ->
      unfollow_user u (Some follower) commit s = ((message "Not following", 200), s)).
Proof.
  split; [ | split; [ | split; [ | split]]].
  - intros s rs. apply (run_invariant follows_ok). apply handle_follows_ok.
  - intros s rs Hnone.
    apply (run_invariant follows_ok); [apply handle_follows_ok | ].
    apply fresh_follows_ok. exact Hnone.
  - intros s u commit. unfold follow_user. cbn [fb_follower_id].
    rewrite Z.eqb_refl. reflexivity.
  - intros s u follower c1 c2 body Hinv Hok.
    pose proof (follow_user_ok_row _ _ _ _ _ Hok) as Hrow.
    pose proof (handle_follows_ok (FollowUser u (Some (mkFollowBody (Some follower))) c1) s Hinv)
      as [_ Huniq].
    cbn [handle] in Huniq. specialize (Huniq follower u).
    assert (Hneq : (follower =? u) = false).
    { destruct (follower =? u) eqn:Heq; [ | reflexivity].
      unfold follow_user in Hok. cbn [fb_follower_id] in Hok.
      rewrite Heq in Hok. discriminate. }
    set (s1 := snd (follow_user u (Some (mkFollowBody (Some follower))) c1 s)) in *.
    split.
    + unfold follow_user. cbn [fb_follower_id]. rewrite Hneq.
      destruct (follow_rows s1 follower u) as [| f rest]; [congruence | reflexivity].
    + destruct (follow_rows s1 follower u) as [| f [| f' rest]];
        [congruence | reflexivity | simpl in Huniq; lia].
  - intros s u follower commit Hnone. unfold unfollow_user.
    destruct (follow_rows s follower u) as [| f rest] eqn:Hrows; [reflexivity | ].
    exfalso.
    assert (Hin : In f (follow_rows s follower u)) by (rewrite Hrows; left; reflexivity).
    apply follow_rows_in in Hin. destruct Hin as (Hin & Ha & Hb).
    apply (Hnone f Hin). split; assumption.
Qed.

Lemma no_follows_ok (evs : list Event) (rows : list EventParticipant) :
  follows_ok (mkStore evs rows []).
Proof. apply fresh_follows_ok. reflexivity. Qed.

(** User 2 follows user 1 twice, tries to follow themselves, unfollows
    and unfollows again. *)
Lemma follow_invariants_witness :
  follows_ok (run [FollowUser 1 (Some (mkFollowBody (Some 2))) Committed;
                   FollowUser 1 (Some (mkFollowBody (Some 2))) Committed;
                   FollowUser 2 (Some (mkFollowBody (Some 2))) Committed;
                   Unfollow 1 (Some 2) Committed;
                   Unfollow 1 (Some 2) Committed] (one_event 2)) /\
  follow_user 1 (Some (mkFollowBody (Some 2))) Committed
    (snd (follow_user 1 (Some (mkFollowBody (Some 2))) Committed (one_event 2)))
  = ((message "Already following", 200),
     snd (follow_user 1 (Some (mkFollowBody (Some 2))) Committed (one_event 2))) /\
  length (follow_rows
            (snd (follow_user 1 (Some (mkFollowBody (Some 2))) Committed (one_event 2)))
            2 1) = 1%nat /\
  unfollow_user 1 (Some 2) Committed (one_event 2)
  = ((message "Not following", 200), one_event 2).
Proof.
  destruct follow_invariants as (_ & Hrun & _ & Htwice & Hunfollow).
  split; [ | split; [ | split]].
  - apply Hrun. reflexivity.
  - apply (Htwice (one_event 2) 1 2 Committed Committed (message "Followed")).
    + apply no_follows_ok.
    + reflexivity.
  - apply (Htwice (one_event 2) 1 2 Committed Committed (message "Followed")).
    + apply no_follows_ok.
    + reflexivity.
  - apply Hunfollow. intros f [].
Defined.

(** ** Discovery ranker *)

Section DiscoveryFacts.
Local Open Scope R_scope.

Lemma sort_insert_perm {A : Type} (key : A -> R) (x : A) (l : list A) :
  Permutation (sort_insert key x l) (x :: l).
Proof.
  induction l as [| y l IH]; simpl; [reflexivity | ].
  destruct (Rlt_dec (key y) (key x)); [ | reflexivity].
  rewrite IH. apply perm_swap.
Qed.

Lemma list_sort_perm {A : Type} (key : A -> R) (l : list A) :
  Permutation (list_sort key l) l.
Proof.
  induction l as [| x l IH]; simpl; [reflexivity | ].
  rewrite sort_insert_perm, IH. reflexivity.
Qed.

End DiscoveryFacts.

(** * Further properties *)

(** ** Membership ledger: effects of join and leave *)

Lemma store_eta (s : Store) : mkStore (events s) (participants s) (follows s) = s.
Proof. destruct s. reflexivity. Qed.

Lemma filter_all {A : Type} (f : A -> bool) (l : list A) :
  (forall x, In x l -> f x = true) -> filter f l = l.
Proof.
  induction l as [| x l IH]; intros H; simpl; [reflexivity | ].
  rewrite (H x (or_introl eq_refl)). f_equal. apply IH.
  intros y Hy. apply H. right. exact Hy.
Qed.

Lemma filter_none {A : Type} (f : A -> bool) (l : list A) :
  (forall x, In x l -> f x = false) -> filter f l = [].
Proof.
  induction l as [| x l IH]; intros H; simpl; [reflexivity | ].
  rewrite (H x (or_introl eq_refl)). apply IH.
  intros y Hy. apply H. right. exact Hy.
Qed.

Lemma NoDup_map_eq {A : Type} (f : A -> Z) (l : list A) (x y : A) :
  NoDup (map f l) -> In x l -> In y l -> f x = f y -> x = y.
Proof.
  induction l as [| a l IH]; intros Hnd Hx Hy Hf; [contradiction | ].
  simpl in Hnd. apply NoDup_cons_iff in Hnd. destruct Hnd as [Ha Hnd].
  destruct Hx as [-> | Hx], Hy as [-> | Hy].
  - reflexivity.
  - exfalso. apply Ha. rewrite Hf. apply in_map. exact Hy.
  - exfalso. apply Ha. rewrite <- Hf. apply in_map. exact Hx.
  - apply IH; assumption.
Qed.

Lemma NoDup_map_filter {A : Type} (f : A -> Z) (g : A -> bool) (l : list A) :
  NoDup (map f l) -> NoDup (map f (filter g l)).
Proof.
  induction l as [| a l IH]; intros Hnd; simpl; [constructor | ].
  simpl in Hnd. apply NoDup_cons_iff in Hnd. destruct Hnd as [Ha Hnd].
  destruct (g a); [ | apply IH; exact Hnd].
  simpl. constructor; [ | apply IH; exact Hnd].
  intros Hin. apply Ha. apply in_map_iff in Hin. destruct Hin as [b [Hb Hin]].
  apply filter_In in Hin. rewrite <- Hb. apply in_map. apply Hin.
Qed.

Lemma NoDup_map_fresh {A : Type} (f : A -> Z) (l : list A) (x : A) :
  NoDup (map f l) -> f x = fresh_id (map f l) -> NoDup (map f (l ++ [x])).
Proof.
  intros Hnd Hx. rewrite map_app. simpl.
  apply NoDup_app; [exact Hnd | constructor; [intros [] | constructor] | ].
  intros a Ha [<- | []]. rewrite Hx in Ha. apply fresh_id_not_in in Ha. exact Ha.
Qed.

Lemma delete_fresh_participant (rows : list EventParticipant) (p : EventParticipant) :
  p_id p = fresh_id (map p_id rows) ->
  filter (fun q => negb (p_id q =? p_id p)) (rows ++ [p]) = rows.
Proof.
  intros Hp. rewrite filter_app. simpl.
  rewrite Z.eqb_refl. simpl. rewrite app_nil_r.
  apply filter_all. intros q Hq.
  apply negb_true_iff, Z.eqb_neq. rewrite Hp.
  pose proof (fresh_id_above (map p_id rows) (p_id q) (in_map p_id rows q Hq)). lia.
Qed.

Lemma join_event_follows (event_id : Z) (data : option JoinBody)
    (commit : commit_result) (s : Store) :
  follows (snd (join_event event_id data commit s)) = follows s.
Proof.
  destruct (join_event_effect event_id data commit s)
    as [-> | (? & ? & p & _ & _ & _ & _ & _ & _ & ->)]; reflexivity.
Qed.

Lemma leave_event_follows (event_id : Z) (data : option LeaveBody)
    (commit : commit_result) (s : Store) :
  follows (snd (leave_event event_id data commit s)) = follows s.
Proof.
  destruct (leave_event_effect event_id data commit s) as [-> | [p ->]]; reflexivity.
Qed.

(** X4: a request that is not answered 200 leaves the store as it was:
    validation errors, a missing event, a full event and a failed commit
    change nothing. *)
Theorem failed_request_keeps_store :
  forall r s, snd (fst (handle r s)) <> 200 -> snd (handle r s) = s.
Proof.
  intros r s.
  destruct r as [eid d c | eid d c | uid d c | uid fid c]; cbn [handle].
  - unfold join_event.
    destruct d as [d |]; [ | reflexivity].
    destruct (truthy_name (jb_player_name d)); simpl; [ | reflexivity].
    destruct (get_event s eid) as [e |]; [ | reflexivity].
    destruct (event_is_full s e); [reflexivity | ].
    destruct (match jb_user_id d with Some _ => _ | None => _ end); [reflexivity | ].
    destruct c as [| [|]]; simpl; try reflexivity.
    intros H. contradiction H. reflexivity.
  - unfold leave_event.
    destruct (match d with Some d0 => lb_user_id d0 | None => None end); [ | reflexivity].
    destruct (first _); [ | reflexivity].
    destruct c; simpl; [ | reflexivity].
    intros H. contradiction H. reflexivity.
  - unfold follow_user.
    destruct (match d with Some d0 => fb_follower_id d0 | None => None end); [ | reflexivity].
    destruct (_ =? _); [reflexivity | ].
    destruct (first _); [reflexivity | ].
    destruct c; simpl; [ | reflexivity].
    intros H. contradiction H. reflexivity.
  - unfold unfollow_user.
    destruct fid; [ | reflexivity].
    destruct (first _); [ | reflexivity].
    destruct c; simpl; [ | reflexivity].
    intros H. contradiction H. reflexivity.
Qed.

(** A join whose commit raises [IntegrityError] is answered 409. *)
Lemma failed_request_keeps_store_witness :
  snd (handle (Join 1 (Some (join_as 5 "Ann")) (Raised IntegrityError)) (one_event 2))
  = one_event 2.
Proof.
  apply (failed_request_keeps_store
           (Join 1 (Some (join_as 5 "Ann")) (Raised IntegrityError)) (one_event 2)).
  vm_compute. discriminate.
Defined.

(** X5: no sequence of join, leave, follow and unfollow requests creates,
    changes or removes an event. *)
Theorem run_keeps_events :
  forall rs s, events (run rs s) = events s.
Proof.
  induction rs as [| r rs IH]; intros s; simpl; [reflexivity | ].
  rewrite IH. apply handle_events.
Qed.

Lemma handle_ids_unique (r : Request) (s : Store) :
  ids_unique s -> ids_unique (snd (handle r s)).
Proof.
  intros [Hp Hf].
  destruct r as [eid d c | eid d c | uid d c | uid fid c]; cbn [handle].
  - split; [ | rewrite join_event_follows; exact Hf].
    unfold join_event.
    destruct d as [d |]; [ | exact Hp].
    destruct (truthy_name (jb_player_name d)); simpl; [ | exact Hp].
    destruct (get_event s eid) as [e |]; [ | exact Hp].
    destruct (event_is_full s e); [exact Hp | ].
    destruct (match jb_user_id d with Some _ => _ | None => _ end); [exact Hp | ].
    destruct c as [| [|]]; simpl; try exact Hp.
    apply NoDup_map_fresh; [exact Hp | reflexivity].
  - split; [ | rewrite leave_event_follows; exact Hf].
    destruct (leave_event_effect eid d c s) as [-> | [p ->]]; [exact Hp | ].
    simpl. apply NoDup_map_filter. exact Hp.
  - split; [rewrite follow_user_participants; exact Hp | ].
    unfold follow_user.
    destruct (match d with Some d0 => fb_follower_id d0 | None => None end); [ | exact Hf].
    destruct (_ =? _); [exact Hf | ].
    destruct (first _); [exact Hf | ].
    destruct c; simpl; [ | exact Hf].
    apply NoDup_map_fresh; [exact Hf | reflexivity].
  - split; [rewrite unfollow_user_participants; exact Hp | ].
    destruct (unfollow_user_effect uid fid c s) as [-> | [f ->]]; [exact Hf | ].
    simpl. apply NoDup_map_filter. exact Hf.
Qed.

Lemma not_full_of_room (s : Store) (event_id : Z) (e : Event) :
  get_event s event_id = Some e ->
  participants_count s event_id < e_max_players e ->
  event_is_full s e = false.
Proof.
  intros Hget Hroom.
  destruct (event_is_full s e) eqn:Hf; [ | reflexivity].
  apply event_is_full_iff in Hf.
  rewrite (get_event_id _ _ _ Hget) in Hf. lia.
Qed.

(** The row a join inserts. *)
Lemma join_event_new_row (event_id : Z) (d : JoinBody) (s : Store) (e : Event) :
  truthy_name (jb_player_name d) = true ->
  get_event s event_id = Some e ->
  participants_count s event_id < e_max_players e ->
  (forall uid, jb_user_id d = Some uid -> membership_rows s event_id uid = []) ->
  join_event event_id (Some d) Committed s
  = let p := mkParticipant (fresh_id (map p_id (participants s))) event_id (jb_user_id d)
                           match jb_player_name d with Some n => n | None => "" end
                           match jb_team d with Some t => t | None => Some "team_a" end in
    ((message_event "Successfully joined event" (to_dict (add_participant p s) e), 200),
     add_participant p s).
Proof.
  intros Hname Hget Hroom Hnew.
  rewrite (join_event_valid _ _ _ _ _ Hname Hget).
  rewrite (not_full_of_room _ _ _ Hget Hroom).
  destruct (jb_user_id d) as [uid |].
  - rewrite (Hnew uid eq_refl). reflexivity.
  - reflexivity.
Qed.

(** X7: a valid join of a user without a row, to an event with room,
    whose commit goes through, is answered 200 'Successfully joined event';
    it appends one row with the given user, name and team ('team_a' when
    the request names none), and the event returned carries the count
    after the insert, one more than before. *)
Theorem join_new_member :
  forall s event_id d e uid name,
    get_event s event_id = Some e ->
    jb_player_name d = Some name ->
    name <> "" ->
    jb_user_id d = Some uid ->
    membership_rows s event_id uid = [] ->
    participants_count s event_id < e_max_players e ->
    exists p,
      join_event event_id (Some d) Committed s
      = ((message_event "Successfully joined event"
            (mkEventDict e (participants_count s event_id + 1)), 200),
         mkStore (events s) (participants s ++ [p]) (follows s)) /\
      p_event_id p = event_id /\
      p_user_id p = Some uid /\
      p_player_name p = name /\
      p_team p = match jb_team d with Some t => t | None => Some "team_a" end /\
      membership_rows (mkStore (events s) (participants s ++ [p]) (follows s)) event_id uid
      = [p].
Proof.
  intros s event_id d e uid name Hget Hname Hne Huid Hnone Hroom.
  assert (Htruthy : truthy_name (jb_player_name d) = true).
  { apply truthy_name_some. exists name. split; assumption. }
  rewrite (join_event_new_row _ _ _ _ Htruthy Hget Hroom).
  2: { intros u Hu. rewrite Huid in Hu. injection Hu as <-. exact Hnone. }
  cbv zeta.
  set (p := mkParticipant (fresh_id (map p_id (participants s))) event_id (jb_user_id d)
                          match jb_player_name d with Some n => n | None => "" end
                          match jb_team d with Some t => t | None => Some "team_a" end).
  exists p.
  change (mkStore (events s) (participants s ++ [p]) (follows s))
    with (add_participant p s).
  split; [ | split; [reflexivity | split; [ | split; [ | split]]]].
  - unfold to_dict. rewrite (get_event_id _ _ _ Hget), participants_count_add.
    cbn [p_event_id p]. rewrite Z.eqb_refl. reflexivity.
  - exact Huid.
  - cbn [p_player_name p]. rewrite Hname. reflexivity.
  - reflexivity.
  - rewrite membership_rows_add, Hnone. cbn [p_event_id p_user_id p].
    rewrite Huid. cbn [opt_Z_eqb]. rewrite !Z.eqb_refl. reflexivity.
Qed.

(** Bob joins the blue team of an event Ann is in. *)
Lemma join_new_member_witness :
  let s := mkStore [pickup 2] [member 1 1 5 "Ann"] [] in
  exists p,
    join_event 1 (Some (mkJoinBody (Some "Bob") (Some (Some "blue")) (Some 6))) Committed s
    = ((message_event "Successfully joined event"
          (mkEventDict (pickup 2) (participants_count s 1 + 1)), 200),
       mkStore (events s) (participants s ++ [p]) (follows s)) /\
    p_event_id p = 1 /\
    p_user_id p = Some 6 /\
    p_player_name p = "Bob" /\
    p_team p = Some "blue" /\
    membership_rows (mkStore (events s) (participants s ++ [p]) (follows s)) 1 6 = [p].
Proof.
  apply (join_new_member (mkStore [pickup 2] [member 1 1 5 "Ann"] []) 1
           (mkJoinBody (Some "Bob") (Some (Some "blue")) (Some 6)) (pickup 2) 6 "Bob").
  - reflexivity.
  - reflexivity.
  - discriminate.
  - reflexivity.
  - reflexivity.
  - vm_compute. reflexivity.
Defined.

(** X8: join then leave is a round trip: when a user without a row joins
    and then leaves, both commits going through, the leave is answered
    200 'Left event' and the store is the one before the join. *)
Theorem join_then_leave_restores :
  forall s event_id d e uid,
    get_event s event_id = Some e ->
    truthy_name (jb_player_name d) = true ->
    jb_user_id d = Some uid ->
    membership_rows s event_id uid = [] ->
    participants_count s event_id < e_max_players e ->
    leave_event event_id (Some (mkLeaveBody (Some uid))) Committed
      (snd (join_event event_id (Some d) Committed s))
    = ((message "Left event", 200), s).
Proof.
  intros s event_id d e uid Hname_get Hname Huid Hnone Hroom.
  rewrite (join_event_new_row _ _ _ _ Hname Hname_get Hroom).
  2: { intros u Hu. rewrite Huid in Hu. injection Hu as <-. exact Hnone. }
  cbv zeta. cbn [snd]. unfold leave_event. cbn [lb_user_id].
  rewrite membership_rows_add, Hnone. cbn [p_event_id p_user_id].
  rewrite Huid. cbn [opt_Z_eqb]. rewrite !Z.eqb_refl. cbn [andb app first].
  f_equal. unfold delete_participant, add_participant. cbn [events participants follows].
  rewrite delete_fresh_participant by reflexivity.
  apply store_eta.
Qed.

(** Bob joins and leaves an event Ann is in. *)
Lemma join_then_leave_restores_witness :
  let s := mkStore [pickup 2] [member 1 1 5 "Ann"] [] in
  leave_event 1 (Some (mkLeaveBody (Some 6))) Committed
    (snd (join_event 1 (Some (join_as 6 "Bob")) Committed s))
  = ((message "Left event", 200), s).
Proof.
  apply (join_then_leave_restores (mkStore [pickup 2] [member 1 1 5 "Ann"] []) 1
           (join_as 6 "Bob") (pickup 2) 6).
  - reflexivity.
  - reflexivity.
  - reflexivity.
  - reflexivity.
  - vm_compute. reflexivity.
Defined.

Lemma filter_filter_keep {A : Type} (f g : A -> bool) (l : list A) :
  (forall x, In x l -> f x = true -> g x = true) ->
  filter f (filter g l) = filter f l.
Proof.
  induction l as [| a l IH]; intros H; simpl; [reflexivity | ].
  assert (IH' : filter f (filter g l) = filter f l).
  { apply IH. intros x Hx. apply H. right. exact Hx. }
  destruct (f a) eqn:Hfa.
  - rewrite (H a (or_introl eq_refl) Hfa). simpl. rewrite Hfa, IH'. reflexivity.
  - destruct (g a); simpl; [rewrite Hfa | ]; exact IH'.
Qed.

Lemma filter_filter_length_lt {A : Type} (f g : A -> bool) (l : list A) (r : A) :
  In r l -> f r = true -> g r = false ->
  (length (filter f (filter g l)) < length (filter f l))%nat.
Proof.
  induction l as [| a l IH]; intros Hin Hf Hg; [contradiction | ].
  destruct Hin as [-> | Hin].
  - simpl. rewrite Hg, Hf. simpl.
    pose proof (filter_filter_length f g l). lia.
  - specialize (IH Hin Hf Hg). simpl.
    destruct (g a); simpl; destruct (f a); simpl; lia.
Qed.

(** Deleting one row of a duplicate-free table removes it from exactly
    one filtered view. *)
Lemma filter_delete_length (f : EventParticipant -> bool)
    (l : list EventParticipant) (row : EventParticipant) :
  NoDup (map p_id l) -> In row l -> f row = true ->
  S (length (filter f (filter (fun q => negb (p_id q =? p_id row)) l)))
  = length (filter f l).
Proof.
  induction l as [| a l IH]; intros Hnd Hin Hf; [contradiction | ].
  simpl in Hnd. apply NoDup_cons_iff in Hnd. destruct Hnd as [Ha Hnd].
  destruct Hin as [-> | Hin].
  - simpl. rewrite Z.eqb_refl, Hf. simpl.
    rewrite (filter_all (fun q => negb (p_id q =? p_id row)) l); [reflexivity | ].
    intros q Hq.
    apply negb_true_iff, Z.eqb_neq. intros Heq.
    apply Ha. rewrite <- Heq. apply in_map. exact Hq.
  - assert (Hne : (p_id a =? p_id row) = false).
    { apply Z.eqb_neq. intros Heq. apply Ha. rewrite Heq. apply in_map. exact Hin. }
    simpl. rewrite Hne. simpl.
    specialize (IH Hnd Hin Hf).
    destruct (f a); simpl; lia.
Qed.

Lemma membership_rows_single (s : Store) (event_id uid : Z) (row : EventParticipant) :
  membership_unique s ->
  In row (participants s) -> p_event_id row = event_id -> p_user_id row = Some uid ->
  membership_rows s event_id uid = [row].
Proof.
  intros Huniq Hin He Hu.
  assert (Hrow : In row (membership_rows s event_id uid)).
  { apply membership_rows_in. auto. }
  specialize (Huniq event_id uid).
  destruct (membership_rows s event_id uid) as [| r [| r' rest]].
  - contradiction.
  - destruct Hrow as [-> | []]. reflexivity.
  - simpl in Huniq. lia.
Qed.

(** X9: when a member leaves and the commit goes through, the answer is
    200 'Left event'; in a store with unique ids and unique memberships
    exactly the member's row is removed: the user has no row of the event
    left, every other row stays, and the event's count drops by one. *)
Theorem leave_member_removes_row :
  forall s event_id uid row,
    membership_unique s ->
    ids_unique s ->
    In row (participants s) ->
    p_event_id row = event_id ->
    p_user_id row = Some uid ->
    leave_event event_id (Some (mkLeaveBody (Some uid))) Committed s
    = ((message "Left event", 200), delete_participant row s) /\
    membership_rows (delete_participant row s) event_id uid = [] /\
    (forall q, In q (participants (delete_participant row s)) <->
               In q (participants s) /\ q <> row) /\
    participants_count (delete_participant row s) event_id
    = participants_count s event_id - 1.
Proof.
  intros s event_id uid row Huniq [Hids _] Hin He Hu.
  pose proof (membership_rows_single _ _ _ _ Huniq Hin He Hu) as Hrows.
  split; [ | split; [ | split]].
  - unfold leave_event. cbn [lb_user_id]. rewrite Hrows. reflexivity.
  - destruct (membership_rows (delete_participant row s) event_id uid) as [| q rest] eqn:Hq;
      [reflexivity | exfalso].
    assert (Hqin : In q (membership_rows (delete_participant row s) event_id uid))
      by (rewrite Hq; left; reflexivity).
    apply membership_rows_in in Hqin. destruct Hqin as (Hqp & Hqe & Hqu).
    simpl in Hqp. apply filter_In in Hqp. destruct Hqp as [Hqp Hne].
    assert (Hq' : In q (membership_rows s event_id uid)).
    { apply membership_rows_in. auto. }
    rewrite Hrows in Hq'. destruct Hq' as [<- | []].
    rewrite Z.eqb_refl in Hne. discriminate.
  - intros q. simpl. rewrite filter_In, negb_true_iff, Z.eqb_neq. split.
    + intros [Hq Hne]. split; [exact Hq | ]. intros ->. apply Hne. reflexivity.
    + intros [Hq Hne]. split; [exact Hq | ]. intros Heq. apply Hne.
      apply (NoDup_map_eq p_id (participants s)); assumption.
  - unfold participants_count, event_participants. simpl.
    rewrite <- (filter_delete_length (fun p => p_event_id p =? event_id)
                                     (participants s) row Hids Hin).
    + lia.
    + apply Z.eqb_eq. exact He.
Qed.

Lemma two_members_unique :
  membership_unique (mkStore [pickup 2] [member 1 1 5 "Ann"; member 2 1 6 "Bob"] []).
Proof.
  intros event_id uid. unfold membership_rows, member.
  cbn [participants filter p_event_id p_user_id opt_Z_eqb].
  destruct (1 =? event_id); cbn [andb length]; [ | lia].
  destruct (5 =? uid) eqn:H5, (6 =? uid) eqn:H6; cbn [length]; lia.
Qed.

Lemma two_members_ids_unique :
  ids_unique (mkStore [pickup 2] [member 1 1 5 "Ann"; member 2 1 6 "Bob"] []).
Proof.
  split; simpl; [ | constructor].
  constructor; [simpl; intros [H | []]; discriminate | ].
  constructor; [intros [] | constructor].
Qed.

(** Ann leaves the event she shares with Bob. *)
Lemma leave_member_removes_row_witness :
  let s := mkStore [pickup 2] [member 1 1 5 "Ann"; member 2 1 6 "Bob"] [] in
  leave_event 1 (Some (mkLeaveBody (Some 5))) Committed s
  = ((message "Left event", 200), delete_participant (member 1 1 5 "Ann") s) /\
  membership_rows (delete_participant (member 1 1 5 "Ann") s) 1 5 = [] /\
  (forall q, In q (participants (delete_participant (member 1 1 5 "Ann") s)) <->
             In q (participants s) /\ q <> member 1 1 5 "Ann") /\
  participants_count (delete_participant (member 1 1 5 "Ann") s) 1
  = participants_count s 1 - 1.
Proof.
  apply (leave_member_removes_row
           (mkStore [pickup 2] [member 1 1 5 "Ann"; member 2 1 6 "Bob"] [])
           1 5 (member 1 1 5 "Ann")).
  - apply two_members_unique.
  - apply two_members_ids_unique.
  - simpl. left. reflexivity.
  - reflexivity.
  - reflexivity.
Defined.

Lemma leave_event_effect_row (event_id : Z) (data : option LeaveBody)
    (commit : commit_result) (s : Store) :
  snd (leave_event event_id data commit s) = s \/
  exists q uid,
    In q (participants s) /\ p_event_id q = event_id /\ p_user_id q = Some uid /\
    snd (leave_event event_id data commit s) = delete_participant q s.
Proof.
  unfold leave_event.
  destruct (match data with Some d => lb_user_id d | None => None end) as [uid |];
    [ | left; reflexivity].
  destruct (membership_rows s event_id uid) as [| q rest] eqn:Hrows; [left; reflexivity | ].
  assert (Hq : In q (membership_rows s event_id uid)) by (rewrite Hrows; left; reflexivity).
  apply membership_rows_in in Hq. destruct Hq as (Hin & He & Hu).
  cbn [first]. destruct commit; [ | left; reflexivity].
  right. exists q, uid. auto.
Qed.

(** X10: a leave frees a place: in an event that does not exceed its
    capacity, once a member has left, a valid join of a user without a
    row succeeds, both commits going through. *)
Theorem leave_frees_a_place :
  forall s event_id uid row e d,
    get_event s event_id = Some e ->
    participants_count s event_id <= e_max_players e ->
    In row (participants s) ->
    p_event_id row = event_id ->
    p_user_id row = Some uid ->
    truthy_name (jb_player_name d) = true ->
    (forall v, jb_user_id d = Some v -> membership_rows s event_id v = []) ->
    exists ev,
      fst (join_event event_id (Some d) Committed
             (snd (leave_event event_id (Some (mkLeaveBody (Some uid))) Committed s)))
      = (message_event "Successfully joined event" ev, 200).
Proof.
  intros s event_id uid row e d Hget Hcap Hin He Hu Hname Hnew.
  destruct (membership_rows_nonempty s event_id uid row Hin He Hu) as [r Hr].
  assert (Hleave : snd (leave_event event_id (Some (mkLeaveBody (Some uid))) Committed s)
                   = delete_participant r s).
  { unfold leave_event. cbn [lb_user_id]. rewrite Hr. reflexivity. }
  rewrite Hleave.
  assert (Hrin : In r (membership_rows s event_id uid)).
  { destruct (membership_rows s event_id uid); [discriminate | ].
    injection Hr as ->. left. reflexivity. }
  apply membership_rows_in in Hrin. destruct Hrin as (Hrp & Hre & Hru).
  assert (Hroom : participants_count (delete_participant r s) event_id < e_max_players e).
  { unfold participants_count, event_participants in *. simpl.
    pose proof (filter_filter_length_lt (fun p => p_event_id p =? event_id)
                  (fun q => negb (p_id q =? p_id r)) (participants s) r Hrp) as Hlt.
    cbv beta in Hlt. rewrite Hre, !Z.eqb_refl in Hlt.
    specialize (Hlt eq_refl eq_refl). lia. }
  rewrite (join_event_new_row event_id d (delete_participant r s) e Hname).
  - cbv zeta. eexists. reflexivity.
  - exact Hget.
  - exact Hroom.
  - intros v Hv. pose proof (membership_rows_delete r s event_id v) as Hlen.
    rewrite (Hnew v Hv) in Hlen. simpl in Hlen.
    destruct (membership_rows (delete_participant r s) event_id v); [reflexivity | ].
    simpl in Hlen. lia.
Qed.

(** In a full event for one player Ann leaves and Bob joins. *)
Lemma leave_frees_a_place_witness :
  let s := mkStore [pickup 1] [member 1 1 5 "Ann"] [] in
  exists ev,
    fst (join_event 1 (Some (join_as 6 "Bob")) Committed
           (snd (leave_event 1 (Some (mkLeaveBody (Some 5))) Committed s)))
    = (message_event "Successfully joined event" ev, 200).
Proof.
  apply (leave_frees_a_place (mkStore [pickup 1] [member 1 1 5 "Ann"] []) 1 5
           (member 1 1 5 "Ann") (pickup 1) (join_as 6 "Bob")).
  - reflexivity.
  - vm_compute. discriminate.
  - simpl. left. reflexivity.
  - reflexivity.
  - reflexivity.
  - reflexivity.
  - intros v Hv. injection Hv as <-. reflexivity.
Defined.

Lemma handle_keeps_guest (r : Request) (s : Store) (p : EventParticipant) :
  ids_unique s -> In p (participants s) -> p_user_id p = None ->
  In p (participants (snd (handle r s))).
Proof.
  intros [Hids _] Hin Hguest.
  destruct r as [eid d c | eid d c | uid d c | uid fid c]; cbn [handle].
  - destruct (join_event_effect eid d c s)
      as [-> | (? & ? & q & _ & _ & _ & _ & _ & _ & ->)]; [exact Hin | ].
    simpl. apply in_or_app. left. exact Hin.
  - destruct (leave_event_effect_row eid d c s)
      as [-> | (q & u & Hq & _ & Hqu & ->)]; [exact Hin | ].
    simpl. apply filter_In. split; [exact Hin | ].
    apply negb_true_iff, Z.eqb_neq. intros Heq.
    assert (p = q) by (apply (NoDup_map_eq p_id (participants s)); assumption).
    subst q. congruence.
  - rewrite follow_user_participants. exact Hin.
  - rewrite unfollow_user_participants. exact Hin.
Qed.

(** X11: a guest row never goes away: in a store with unique ids, a row
    without user is still there after any sequence of requests, because a
    leave only removes a row of the user it names. *)
Theorem guest_rows_persist :
  forall rs s p,
    ids_unique s ->
    In p (participants s) ->
    p_user_id p = None ->
    In p (participants (run rs s)).
Proof.
  intros rs s p Hids Hin Hguest.
  apply (run_invariant (fun s' => ids_unique s' /\ In p (participants s'))).
  - intros r s' [Hids' Hin']. split.
    + apply handle_ids_unique. exact Hids'.
    + apply handle_keeps_guest; assumption.
  - split; assumption.
Qed.

(** A guest among leaves of every user id in use. *)
Lemma guest_rows_persist_witness :
  In (guest 1 1 "Sam")
     (participants
        (run [Join 1 (Some (join_as 5 "Ann")) Committed;
              Leave 1 (Some (mkLeaveBody (Some 5))) Committed;
              Leave 1 (Some (mkLeaveBody (Some 1))) Committed;
              Leave 1 (Some (mkLeaveBody None)) Committed]
             (mkStore [pickup 3] [guest 1 1 "Sam"] []))).
Proof.
  apply guest_rows_persist.
  - split; simpl; constructor; [intros [] | constructor].
  - simpl. left. reflexivity.
  - reflexivity.
Defined.

(** X12: an event whose [max_players] is zero or negative accepts
    nobody: every valid join, the first included, is answered 409 'Event
    is full' and changes nothing. *)
Theorem no_join_without_capacity :
  forall s event_id d commit e,
    truthy_name (jb_player_name d) = true ->
    get_event s event_id = Some e ->
    e_max_players e <= 0 ->
    join_event event_id (Some d) commit s = ((error "Event is full", 409), s).
Proof.
  intros s event_id d commit e Hname Hget Hmax.
  rewrite (join_event_valid _ _ _ _ _ Hname Hget).
  assert (Hfull : event_is_full s e = true).
  { apply event_is_full_iff. unfold participants_count. lia. }
  rewrite Hfull. reflexivity.
Qed.

(** The first join to an event for zero players. *)
Lemma no_join_without_capacity_witness :
  join_event 1 (Some (join_as 5 "Ann")) Committed (one_event 0)
  = ((error "Event is full", 409), one_event 0).
Proof.
  apply (no_join_without_capacity (one_event 0) 1 (join_as 5 "Ann") Committed (pickup 0)).
  - reflexivity.
  - reflexivity.
  - simpl. lia.
Defined.

(** X13: joins and leaves of one event do not touch the participants of
    another: the rows of any other event are the same after a join, and,
    in a store with unique ids, after a leave. *)
Theorem other_events_untouched :
  forall s event_id other,
    other <> event_id ->
    (forall d commit,
        event_participants (snd (join_event event_id d commit s)) other
        = event_participants s other) /\
    (forall d commit,
        ids_unique s ->
        event_participants (snd (leave_event event_id d commit s)) other
        = event_participants s other).
Proof.
  intros s event_id other Hne. split.
  - intros d commit.
    destruct (join_event_effect event_id d commit s)
      as [-> | (? & ? & p & _ & _ & _ & _ & Hpe & _ & ->)]; [reflexivity | ].
    unfold event_participants, add_participant. cbn [participants].
    rewrite filter_app. cbn [filter]. rewrite Hpe.
    assert (Hf : (event_id =? other) = false) by (apply Z.eqb_neq; congruence).
    rewrite Hf. apply app_nil_r.
  - intros d commit [Hids _].
    destruct (leave_event_effect_row event_id d commit s)
      as [-> | (q & u & Hq & Hqe & _ & ->)]; [reflexivity | ].
    unfold event_participants, delete_participant. cbn [participants].
    apply filter_filter_keep. intros x Hx Hxe.
    apply Z.eqb_eq in Hxe.
    apply negb_true_iff, Z.eqb_neq. intros Heq.
    assert (x = q) by (apply (NoDup_map_eq p_id (participants s)); assumption).
    subst x. congruence.
Qed.

(** Ann is in two events; a join to and a leave from the first leave the
    rows of the second alone. *)
Lemma other_events_untouched_witness :
  event_participants
    (snd (join_event 1 (Some (join_as 6 "Bob")) Committed two_events)) 2
  = event_participants two_events 2 /\
  event_participants
    (snd (leave_event 1 (Some (mkLeaveBody (Some 5))) Committed two_events)) 2
  = event_participants two_events 2.
Proof.
  destruct (other_events_untouched two_events 1 2) as [Hjoin Hleave].
  - discriminate.
  - split; [apply Hjoin | apply Hleave].
    split; simpl; [ | constructor].
    constructor; [simpl; intros [H | []]; discriminate | ].
    constructor; [intros [] | constructor].
Defined.

(** ** Follows: round trip and independence of pairs *)

Lemma delete_fresh_follow (rows : list Follow) (f : Follow) :
  f_id f = fresh_id (map f_id rows) ->
  filter (fun g => negb (f_id g =? f_id f)) (rows ++ [f]) = rows.
Proof.
  intros Hf. rewrite filter_app. simpl.
  rewrite Z.eqb_refl. simpl. rewrite app_nil_r.
  apply filter_all. intros g Hg.
  apply negb_true_iff, Z.eqb_neq. rewrite Hf.
  pose proof (fresh_id_above (map f_id rows) (f_id g) (in_map f_id rows g Hg)). lia.
Qed.

Lemma follow_user_new_row (user_id follower : Z) (s : Store) :
  follower <> user_id ->
  follow_rows s follower user_id = [] ->
  follow_user user_id (Some (mkFollowBody (Some follower))) Committed s
  = ((message "Followed", 200),
     add_follow (mkFollow (fresh_id (map f_id (follows s))) follower user_id) s).
Proof.
  intros Hne Hnone. unfold follow_user. cbn [fb_follower_id].
  apply Z.eqb_neq in Hne. rewrite Hne, Hnone. reflexivity.
Qed.

(** X14: follow then unfollow is a round trip: when a user follows
    another for the first time and then unfollows, both commits going
    through, the unfollow is answered 200 'Unfollowed' and the store is the
    one before the follow. *)
Theorem follow_then_unfollow_restores :
  forall s user_id follower,
    follower <> user_id ->
    follow_rows s follower user_id = [] ->
    unfollow_user user_id (Some follower) Committed
      (snd (follow_user user_id (Some (mkFollowBody (Some follower))) Committed s))
    = ((message "Unfollowed", 200), s).
Proof.
  intros s user_id follower Hne Hnone.
  rewrite (follow_user_new_row _ _ _ Hne Hnone). cbn [snd].
  unfold unfollow_user, follow_rows, add_follow. cbn [follows].
  rewrite filter_app. fold (follow_rows s follower user_id). rewrite Hnone.
  cbn [filter f_follower_id f_followee_id app].
  rewrite !Z.eqb_refl. cbn [andb first].
  f_equal. unfold delete_follow. cbn [events participants follows].
  rewrite delete_fresh_follow by reflexivity.
  apply store_eta.
Qed.

(** User 2 follows and unfollows user 1. *)
Lemma follow_then_unfollow_restores_witness :
  unfollow_user 1 (Some 2) Committed
    (snd (follow_user 1 (Some (mkFollowBody (Some 2))) Committed (one_event 2)))
  = ((message "Unfollowed", 200), one_event 2).
Proof.
  apply (follow_then_unfollow_restores (one_event 2) 1 2).
  - discriminate.
  - reflexivity.
Defined.

(** X15: when a follower unfollows and the commit goes through, the
    answer is 200 'Unfollowed'; in a store with unique ids and at most one
    row per pair exactly that row is removed, so the pair has no row left
    and a new follow of the pair is answered 'Followed' again. *)
Theorem unfollow_removes_pair :
  forall s user_id follower f,
    follows_ok s ->
    ids_unique s ->
    In f (follows s) ->
    f_follower_id f = follower ->
    f_followee_id f = user_id ->
    unfollow_user user_id (Some follower) Committed s
    = ((message "Unfollowed", 200), delete_follow f s) /\
    follow_rows (delete_follow f s) follower user_id = [] /\
    (forall g, In g (follows (delete_follow f s)) <-> In g (follows s) /\ g <> f) /\
    fst (follow_user user_id (Some (mkFollowBody (Some follower))) Committed
           (delete_follow f s))
    = (message "Followed", 200).
Proof.
  intros s user_id follower f [Hirr Huniq] [_ Hids] Hin Ha Hb.
  assert (Hrows : follow_rows s follower user_id = [f]).
  { assert (Hf : In f (follow_rows s follower user_id)) by (apply follow_rows_in; auto).
    specialize (Huniq follower user_id).
    destruct (follow_rows s follower user_id) as [| g [| g' rest]].
    - contradiction.
    - destruct Hf as [-> | []]. reflexivity.
    - simpl in Huniq. lia. }
  assert (Hgone : follow_rows (delete_follow f s) follower user_id = []).
  { destruct (follow_rows (delete_follow f s) follower user_id) as [| g rest] eqn:Hg;
      [reflexivity | exfalso].
    assert (Hgin : In g (follow_rows (delete_follow f s) follower user_id))
      by (rewrite Hg; left; reflexivity).
    apply follow_rows_in in Hgin. destruct Hgin as (Hgp & Hga & Hgb).
    simpl in Hgp. apply filter_In in Hgp. destruct Hgp as [Hgp Hne].
    assert (Hg' : In g (follow_rows s follower user_id)) by (apply follow_rows_in; auto).
    rewrite Hrows in Hg'. destruct Hg' as [<- | []].
    rewrite Z.eqb_refl in Hne. discriminate. }
  split; [ | split; [exact Hgone | split]].
  - unfold unfollow_user. rewrite Hrows. reflexivity.
  - intros g. simpl. rewrite filter_In, negb_true_iff, Z.eqb_neq. split.
    + intros [Hg Hne]. split; [exact Hg | ]. intros ->. apply Hne. reflexivity.
    + intros [Hg Hne]. split; [exact Hg | ]. intros Heq. apply Hne.
      apply (NoDup_map_eq f_id (follows s)); assumption.
  - rewrite follow_user_new_row; [reflexivity | | exact Hgone].
    rewrite <- Ha, <- Hb. apply Hirr. exact Hin.
Qed.

Lemma two_follows_ok : follows_ok two_follows /\ ids_unique two_follows.
Proof.
  split; [split | split].
  - intros f [<- | [<- | []]]; discriminate.
  - intros a b. unfold follow_rows, two_follows.
    cbn [follows filter f_follower_id f_followee_id].
    destruct (2 =? a) eqn:H2a, (1 =? b) eqn:H1b, (1 =? a) eqn:H1a, (2 =? b) eqn:H2b;
      cbn [andb length]; lia.
  - constructor.
  - simpl. constructor; [simpl; intros [H | []]; discriminate | ].
    constructor; [intros [] | constructor].
Qed.

(** Users 1 and 2 follow each other; user 2 unfollows user 1. *)
Lemma unfollow_removes_pair_witness :
  unfollow_user 1 (Some 2) Committed two_follows
  = ((message "Unfollowed", 200), delete_follow (mkFollow 1 2 1) two_follows) /\
  follow_rows (delete_follow (mkFollow 1 2 1) two_follows) 2 1 = [] /\
  (forall g, In g (follows (delete_follow (mkFollow 1 2 1) two_follows)) <->
             In g (follows two_follows) /\ g <> mkFollow 1 2 1) /\
  fst (follow_user 1 (Some (mkFollowBody (Some 2))) Committed
         (delete_follow (mkFollow 1 2 1) two_follows))
  = (message "Followed", 200).
Proof.
  apply (unfollow_removes_pair two_follows 1 2 (mkFollow 1 2 1)).
  - apply two_follows_ok.
  - apply two_follows_ok.
  - simpl. left. reflexivity.
  - reflexivity.
  - reflexivity.
Defined.

(** X16: following is directed and pairwise: a follow or an unfollow of
    the pair (follower, user) in a store with unique ids leaves the rows
    of every other pair, the reverse pair included, as they were. *)
Theorem other_pairs_untouched :
  forall s user_id follower a b,
    (a, b) <> (follower, user_id) ->
    (forall commit,
        follow_rows (snd (follow_user user_id (Some (mkFollowBody (Some follower))) commit s))
                    a b
        = follow_rows s a b) /\
    (forall commit,
        ids_unique s ->
        follow_rows (snd (unfollow_user user_id (Some follower) commit s)) a b
        = follow_rows s a b).
Proof.
  intros s user_id follower a b Hne.
  assert (Hpair : (follower =? a) && (user_id =? b) = false).
  { destruct ((follower =? a) && (user_id =? b)) eqn:H; [ | reflexivity].
    apply andb_true_iff in H. destruct H as [Ha Hb].
    apply Z.eqb_eq in Ha, Hb. subst. contradiction Hne. reflexivity. }
  split.
  - intros commit. unfold follow_user. cbn [fb_follower_id].
    destruct (follower =? user_id); [reflexivity | ].
    destruct (first (follow_rows s follower user_id)); [reflexivity | ].
    destruct commit; [ | reflexivity].
    unfold follow_rows, add_follow. cbn [snd follows].
    rewrite filter_app. cbn [filter f_follower_id f_followee_id].
    rewrite Hpair. apply app_nil_r.
  - intros commit [_ Hids]. unfold unfollow_user.
    destruct (follow_rows s follower user_id) as [| f rest] eqn:Hrows; [reflexivity | ].
    assert (Hf : In f (follow_rows s follower user_id)) by (rewrite Hrows; left; reflexivity).
    apply follow_rows_in in Hf. destruct Hf as (Hfin & Hfa & Hfb).
    cbn [first]. destruct commit; [ | reflexivity].
    unfold follow_rows, delete_follow. cbn [snd follows].
    apply filter_filter_keep. intros g Hg Hgab.
    apply andb_true_iff in Hgab. destruct Hgab as [Hga Hgb].
    apply Z.eqb_eq in Hga, Hgb.
    apply negb_true_iff, Z.eqb_neq. intros Heq.
    assert (g = f) by (apply (NoDup_map_eq f_id (follows s)); assumption).
    subst g. apply Hne. congruence.
Qed.

(** User 2 follows and unfollows user 1; the rows of 1 following 2 stay. *)
Lemma other_pairs_untouched_witness :
  follow_rows (snd (follow_user 1 (Some (mkFollowBody (Some 2))) Committed (one_event 2)))
              1 2 = follow_rows (one_event 2) 1 2 /\
  follow_rows (snd (unfollow_user 1 (Some 2) Committed two_follows)) 1 2
  = follow_rows two_follows 1 2.
Proof.
  split.
  - apply (other_pairs_untouched (one_event 2) 1 2 1 2). discriminate.
  - apply (other_pairs_untouched two_follows 1 2 1 2); [discriminate | ].
    apply two_follows_ok.
Defined.

(** ** Discovery ranker: listing without a reference point, stability *)

Section DiscoveryMoreFacts.
Local Open Scope R_scope.

Lemma list_sort_sorted_id {A : Type} (key : A -> R) (l : list A) :
  StronglySorted (fun a b => key a <= key b) l -> list_sort key l = l.
Proof.
  induction l as [| x l IH]; intros Hs; [reflexivity | ].
  apply StronglySorted_inv in Hs. destruct Hs as [Hs Hx].
  simpl. rewrite (IH Hs).
  destruct l as [| y l]; [reflexivity | ].
  simpl. apply Forall_inv in Hx.
  destruct (Rlt_dec (key y) (key x)); [lra | reflexivity].
Qed.

Lemma StronglySorted_const_key {A : Type} (key : A -> R) (k : R) (l : list A) :
  (forall x, In x l -> key x = k) ->
  StronglySorted (fun a b => key a <= key b) l.
Proof.
  induction l as [| x l IH]; intros H; constructor.
  - apply IH. intros y Hy. apply H. right. exact Hy.
  - apply Forall_forall. intros y Hy.
    rewrite (H x (or_introl eq_refl)), (H y (or_intror Hy)). lra.
Qed.

Lemma nearby_loop_no_reference (lat lng : option R) (s : Store) (evs : list Event) :
  lat = None \/ lng = None ->
  forall acc,
    nearby_loop lat lng s evs acc
    = Some (acc ++ map (fun e => mkItem (to_dict s e) None) evs)%list.
Proof.
  intros Hno. induction evs as [| e evs IH]; intros acc; cbn [nearby_loop map].
  - rewrite app_nil_r. reflexivity.
  - assert (Hd : event_distance lat lng e = Some None).
    { unfold event_distance. destruct Hno as [-> | ->];
        [reflexivity | destruct lat; reflexivity]. }
    rewrite Hd. cbn [bind]. rewrite IH, <- app_assoc. reflexivity.
Qed.

(** X17: without a reference point, [lat] or [lng] missing, the listing
    is answered 200 with the events in the order of the table, each with
    no distance: nothing is computed and the sort moves nothing. *)
Theorem nearby_events_without_reference :
  forall (lat lng : option R) (s : Store),
    lat = None \/ lng = None ->
    nearby_events lat lng s
    = (items (map (fun e => mkItem (to_dict s e) None) (events s)), 200%Z).
Proof.
  intros lat lng s Hno. unfold nearby_events.
  rewrite (nearby_loop_no_reference lat lng s (events s) Hno []). cbn [app].
  rewrite list_sort_sorted_id; [reflexivity | ].
  apply (StronglySorted_const_key sort_key 1e9).
  intros x Hx. apply in_map_iff in Hx. destruct Hx as [e [<- _]]. reflexivity.
Qed.

(** A listing with a latitude and no longitude. *)
Lemma nearby_events_without_reference_witness :
  let s := mkStore [located 3 None; located 1 (Some (0, 0))] [] [] in
  nearby_events (Some 0) None s
  = (items (map (fun e => mkItem (to_dict s e) None) (events s)), 200%Z).
Proof.
  apply (nearby_events_without_reference (Some 0) None
           (mkStore [located 3 None; located 1 (Some (0, 0))] [] [])).
  right. reflexivity.
Defined.

Lemma sort_insert_filter {A : Type} (key : A -> R) (p : A -> bool) (x : A) (l : list A) :
  (forall y, In y l -> p x = true -> p y = true -> key x = key y) ->
  filter p (sort_insert key x l) = filter p (x :: l).
Proof.
  induction l as [| y l IH]; intros Hk; [reflexivity | ].
  cbn [sort_insert].
  destruct (Rlt_dec (key y) (key x)) as [Hlt | Hge]; [ | reflexivity].
  assert (IH' : filter p (sort_insert key x l) = filter p (x :: l)).
  { apply IH. intros z Hz. apply Hk. right. exact Hz. }
  cbn [filter] in *. rewrite IH'.
  destruct (p x) eqn:Hpx, (p y) eqn:Hpy; try reflexivity.
  exfalso. pose proof (Hk y (or_introl eq_refl) eq_refl Hpy). lra.
Qed.

(** The sort is stable: a group of items of equal key is in the sorted
    list in the order it has in the input. *)
Lemma list_sort_stable {A : Type} (key : A -> R) (p : A -> bool) (l : list A) :
  (forall x y, In x l -> In y l -> p x = true -> p y = true -> key x = key y) ->
  filter p (list_sort key l) = filter p l.
Proof.
  induction l as [| x l IH]; intros Hk; [reflexivity | ].
  cbn [list_sort]. rewrite sort_insert_filter.
  - cbn [filter]. rewrite IH; [reflexivity | ].
    intros a b Ha Hb. apply Hk; right; assumption.
  - intros y Hy. apply Hk; [left; reflexivity | right].
    apply (Permutation_in _ (list_sort_perm key l)). exact Hy.
Qed.

(** The distance of an event is missing exactly when the event lacks a
    coordinate, whatever the calculator returns. *)
Lemma event_distance_none_iff (lat lng : R) (e : Event) (d : option R) :
  event_distance (Some lat) (Some lng) e = Some d ->
  match d with None => true | Some _ => false end
  = match e_latitude e, e_longitude e with
    | Some _, Some _ => false
    | _, _ => true
    end.
Proof.
  unfold event_distance.
  destruct (e_latitude e) as [ela |]; [destruct (e_longitude e) as [eln |] | ].
  - destruct (haversine_km lat lng ela eln) as [x |]; cbn [bind ret]; [ | discriminate].
    intros H. injection H as <-. reflexivity.
  - intros H. injection H as <-. reflexivity.
  - intros H. injection H as <-. reflexivity.
Qed.

Lemma nearby_loop_unlocated (lat lng : R) (s : Store) (evs : list Event) :
  forall acc raw,
    nearby_loop (Some lat) (Some lng) s evs acc = Some raw ->
    filter (fun x => match distance_km x with None => true | Some _ => false end) raw
    = (filter (fun x => match distance_km x with None => true | Some _ => false end) acc
       ++ map (fun e => mkItem (to_dict s e) None)
              (filter (fun e => match e_latitude e, e_longitude e with
                                | Some _, Some _ => false
                                | _, _ => true
                                end) evs))%list.
Proof.
  induction evs as [| e evs IH]; intros acc raw Hloop; cbn [nearby_loop] in Hloop.
  - injection Hloop as <-. cbn [filter map]. rewrite app_nil_r. reflexivity.
  - destruct (event_distance (Some lat) (Some lng) e) as [d |] eqn:Hd;
      cbn [bind] in Hloop; [ | discriminate].
    rewrite (IH _ _ Hloop), filter_app. cbn [filter distance_km].
    rewrite (event_distance_none_iff lat lng e d Hd).
    destruct d as [x |].
    + rewrite <- (event_distance_none_iff lat lng e (Some x) Hd).
      cbn [app]. rewrite app_nil_r. reflexivity.
    + rewrite <- (event_distance_none_iff lat lng e None Hd).
      cbn [map]. rewrite <- app_assoc. reflexivity.
Qed.

(** X18: events that lack a coordinate keep the order of the table:
    whenever a request with a reference point is answered with a listing,
    the items without a distance in it are the events without both
    coordinates, in the order in which the table holds them. *)
Theorem nearby_events_unlocated_in_table_order :
  forall (lat lng : R) (s : Store) (out : list NearbyItem),
    nearby_events (Some lat) (Some lng) s = (items out, 200%Z) ->
    filter (fun x => match distance_km x with None => true | Some _ => false end) out
    = map (fun e => mkItem (to_dict s e) None)
          (filter (fun e => match e_latitude e, e_longitude e with
                            | Some _, Some _ => false
                            | _, _ => true
                            end) (events s)).
Proof.
  intros lat lng s out. unfold nearby_events.
  destruct (nearby_loop (Some lat) (Some lng) s (events s) []) as [raw |] eqn:Hloop;
    [ | discriminate].
  intros H. injection H as <-.
  rewrite list_sort_stable.
  - rewrite (nearby_loop_unlocated lat lng s (events s) [] raw Hloop). reflexivity.
  - intros x y _ _ Hx Hy. unfold sort_key.
    destruct (distance_km x); [discriminate | ].
    destruct (distance_km y); [discriminate | reflexivity].
Qed.

(** A listing from (0, 0): two events without coordinates around an
    event on the spot. *)
Lemma nearby_events_unlocated_in_table_order_witness :
  let s := mkStore [located 3 None; located 1 (Some (0, 0)); located 4 None] [] [] in
  filter (fun x => match distance_km x with None => true | Some _ => false end)
         [mkItem (to_dict s (located 1 (Some (0, 0)))) (Some 0);
          mkItem (to_dict s (located 3 None)) None;
          mkItem (to_dict s (located 4 None)) None]
  = map (fun e => mkItem (to_dict s e) None)
        (filter (fun e => match e_latitude e, e_longitude e with
                          | Some _, Some _ => false
                          | _, _ => true
                          end) (events s)).
Proof.
  apply (nearby_events_unlocated_in_table_order 0 0
           (mkStore [located 3 None; located 1 (Some (0, 0)); located 4 None] [] [])).
  unfold nearby_events. cbn [events nearby_loop].
  unfold event_distance at 1. cbn [located e_latitude e_longitude option_map ret bind].
  unfold event_distance at 1. cbn [located e_latitude e_longitude option_map fst snd].
  rewrite haversine_km_self. cbn [bind ret].
  unfold event_distance at 1. cbn [located e_latitude e_longitude option_map ret bind].
  cbn [app list_sort sort_insert sort_key distance_km].
  repeat (destruct (Rlt_dec _ _); try lra; cbn [sort_insert sort_key distance_km]).
  reflexivity.
Defined.

End DiscoveryMoreFacts.

(** ** Event creation *)

Lemma find_append {A : Type} (f : A -> bool) (l1 l2 : list A) :
  find f (l1 ++ l2) = match find f l1 with
                      | Some x => Some x
                      | None => find f l2
                      end.
Proof.
  induction l1 as [| a l1 IH]; simpl; [reflexivity | ].
  destruct (f a); [reflexivity | exact IH].
Qed.

Lemma get_event_add_old (s : Store) (e : Event) (event_id : Z) :
  e_id e = fresh_id (map e_id (events s)) ->
  event_id <> e_id e ->
  get_event (add_event e s) event_id = get_event s event_id.
Proof.
  intros Hfresh Hne. unfold get_event, add_event. cbn [events].
  rewrite find_append.
  destruct (find (fun e0 => e_id e0 =? event_id) (events s)); [reflexivity | ].
  simpl. apply Z.eqb_neq in Hne. rewrite Z.eqb_sym, Hne. reflexivity.
Qed.

Lemma get_event_add_new (s : Store) (e : Event) :
  e_id e = fresh_id (map e_id (events s)) ->
  get_event (add_event e s) (e_id e) = Some e.
Proof.
  intros Hfresh. unfold get_event, add_event. cbn [events].
  rewrite find_append.
  destruct (find (fun e0 => e_id e0 =? e_id e) (events s)) as [e0 |] eqn:Hfind.
  - exfalso. apply find_some in Hfind. destruct Hfind as [Hin Heq].
    apply Z.eqb_eq in Heq.
    pose proof (fresh_id_above (map e_id (events s)) (e_id e0)
                               (in_map e_id (events s) e0 Hin)). lia.
  - simpl. rewrite Z.eqb_refl. reflexivity.
Qed.

Lemma get_event_add_some (s : Store) (e e0 : Event) (event_id : Z) :
  e_id e = fresh_id (map e_id (events s)) ->
  get_event s event_id = Some e0 ->
  get_event (add_event e s) event_id = Some e0.
Proof.
  intros Hfresh Hget. rewrite get_event_add_old; [exact Hget | exact Hfresh | ].
  intros ->. apply find_some in Hget. destruct Hget as [Hin Heq].
  apply Z.eqb_eq in Heq.
  pose proof (fresh_id_above (map e_id (events s)) (e_id e0)
                             (in_map e_id (events s) e0 Hin)). lia.
Qed.

Section CreateEventFacts.

Variable fromisoformat : string -> exc string.

(** X19: a creation that is not answered 201 stores nothing: a body
    without one of the four required keys is answered 400, and a date that
    does not parse or a failed commit is answered 500, each with the store
    unchanged. *)
Theorem create_event_failure_keeps_store :
  forall data now commit s,
    (snd (fst (create_event fromisoformat data now commit s)) <> 201 ->
     snd (create_event fromisoformat data now commit s) = s) /\
    (forall d,
        data = Some d ->
        ce_name d = None \/ ce_sport d = None \/ ce_location d = None \/
        ce_max_players d = None ->
        create_event fromisoformat data now commit s
        = ((error "Missing required fields: name, sport, location, max_players", 400), s)) /\
    (forall d t,
        data = Some d ->
        ce_name d <> None -> ce_sport d <> None -> ce_location d <> None ->
        ce_max_players d <> None ->
        ce_event_date d = Some t -> t <> "" -> fromisoformat t = None ->
        create_event fromisoformat data now commit s
        = ((error "Failed to create event", 500), s)).
Proof.
  intros data now commit s. split; [ | split].
  - unfold create_event.
    destruct data as [d |]; [ | reflexivity].
    destruct (ce_name d), (ce_sport d), (ce_location d), (ce_max_players d);
      try reflexivity.
    destruct (parse_event_date fromisoformat (ce_event_date d)); [ | reflexivity].
    destruct commit; simpl; [ | reflexivity].
    intros H. contradiction H. reflexivity.
  - intros d -> Hmiss. unfold create_event.
    destruct (ce_name d), (ce_sport d), (ce_location d), (ce_max_players d);
      try reflexivity.
    destruct Hmiss as [H | [H | [H | H]]]; discriminate.
  - intros d t -> Hn Hs Hl Hm Hdate Ht Hparse. unfold create_event.
    destruct (ce_name d); [ | contradiction].
    destruct (ce_sport d); [ | contradiction].
    destruct (ce_location d); [ | contradiction].
    destruct (ce_max_players d); [ | contradiction].
    unfold parse_event_date. rewrite Hdate.
    apply String.eqb_neq in Ht. rewrite Ht, Hparse. reflexivity.
Qed.

(** X20: creation and lookup round trip: a body with the four required
    keys, whose date parses and whose commit goes through, is answered 201
    with the new event; the event is found under its id with the fields of
    the body, every other id looks up what it did before, and the
    participants and follows are untouched. *)
Theorem create_event_then_lookup :
  forall d now s name sport location max_players event_date,
    ce_name d = Some name ->
    ce_sport d = Some sport ->
    ce_location d = Some location ->
    ce_max_players d = Some max_players ->
    parse_event_date fromisoformat (ce_event_date d) = Some event_date ->
    exists e,
      create_event fromisoformat (Some d) now Committed s
      = ((message_event "Event created successfully" (to_dict (add_event e s) e), 201),
         add_event e s) /\
      e = mkEvent (e_id e) name sport location (ce_notes d) max_players event_date
                  (ce_latitude d) (ce_longitude d) (ce_skill_level d)
                  (ce_host_user_id d) now /\
      ~ In (e_id e) (map e_id (events s)) /\
      get_event (add_event e s) (e_id e) = Some e /\
      (forall event_id, event_id <> e_id e ->
                        get_event (add_event e s) event_id = get_event s event_id) /\
      participants (add_event e s) = participants s /\
      follows (add_event e s) = follows s.
Proof.
  intros d now s name sport location max_players event_date Hn Hs Hl Hm Hdate.
  unfold create_event. rewrite Hn, Hs, Hl, Hm, Hdate. cbv zeta.
  eexists. split; [reflexivity | ].
  split; [reflexivity | ].
  split; [apply fresh_id_not_in | ].
  split; [apply get_event_add_new; reflexivity | ].
  split; [ | split; reflexivity].
  intros event_id Hne. apply get_event_add_old; [reflexivity | exact Hne].
Qed.

End CreateEventFacts.

(** A body without a name; a date the parser refuses. *)
Lemma create_event_failure_keeps_store_witness :
  create_event accept_iso
    (Some (mkCreateEventBody None (Some "basketball") (Some "IMA gym") (Some 10)
                             None None None None None None))
    "2024-05-01T10:00:00" Committed (one_event 2)
  = ((error "Missing required fields: name, sport, location, max_players", 400),
     one_event 2) /\
  create_event (fun _ => None) (Some (new_game 10)) "2024-05-01T10:00:00" Committed
    (one_event 2)
  = ((error "Failed to create event", 500), one_event 2).
Proof.
  split.
  - eapply (create_event_failure_keeps_store accept_iso); [reflexivity | ].
    left. reflexivity.
  - eapply (create_event_failure_keeps_store (fun _ => None));
      try reflexivity; discriminate.
Defined.

(** A game created next to the pickup game. *)
Lemma create_event_then_lookup_witness :
  exists e,
    create_event accept_iso (Some (new_game 10)) "2024-05-02T09:00:00" Committed
      (one_event 2)
    = ((message_event "Event created successfully" (to_dict (add_event e (one_event 2)) e),
        201), add_event e (one_event 2)) /\
    e = mkEvent (e_id e) "Evening game" "basketball" "IMA gym" None 10
                (Some "2024-06-01T18:00:00") None None None (Some 5)
                "2024-05-02T09:00:00" /\
    ~ In (e_id e) (map e_id (events (one_event 2))) /\
    get_event (add_event e (one_event 2)) (e_id e) = Some e /\
    (forall event_id, event_id <> e_id e ->
                      get_event (add_event e (one_event 2)) event_id
                      = get_event (one_event 2) event_id) /\
    participants (add_event e (one_event 2)) = participants (one_event 2) /\
    follows (add_event e (one_event 2)) = follows (one_event 2).
Proof.
  apply (create_event_then_lookup accept_iso (new_game 10) "2024-05-02T09:00:00"
           (one_event 2) "Evening game" "basketball" "IMA gym" 10
           (Some "2024-06-01T18:00:00")); reflexivity.
Defined.

(** ** Referential integrity *)

Lemma handle_refs_ok (r : Request) (s : Store) :
  refs_ok s -> refs_ok (snd (handle r s)).
Proof.
  intros Hrefs p Hin.
  rewrite (get_event_same_events s) by apply handle_events.
  destruct r as [eid d c | eid d c | uid d c | uid fid c]; cbn [handle] in Hin.
  - destruct (join_event_effect eid d c s)
      as [Heq | (d0 & e & q & _ & He & _ & _ & Hqe & _ & Heq)];
      rewrite Heq in Hin; [apply Hrefs; exact Hin | ].
    simpl in Hin. apply in_app_or in Hin.
    destruct Hin as [Hin | [<- | []]]; [apply Hrefs; exact Hin | ].
    exists e. rewrite Hqe. exact He.
  - destruct (leave_event_effect eid d c s) as [Heq | [q Heq]];
      rewrite Heq in Hin; [apply Hrefs; exact Hin | ].
    simpl in Hin. apply filter_In in Hin. apply Hrefs. apply Hin.
  - rewrite follow_user_participants in Hin. apply Hrefs. exact Hin.
  - rewrite unfollow_user_participants in Hin. apply Hrefs. exact Hin.
Qed.

(** X21: no participant row is ever orphaned by the handlers: when every
    row belongs to an event of the table, this is still so after any
    sequence of join, leave, follow and unfollow requests and after a
    creation of an event. *)
Theorem refs_ok_kept :
  (forall rs s, refs_ok s -> refs_ok (run rs s)) /\
  (forall fromisoformat data now commit s,
      refs_ok s -> refs_ok (snd (create_event fromisoformat data now commit s))).
Proof.
  split.
  - intros rs s. apply (run_invariant refs_ok). apply handle_refs_ok.
  - intros fromisoformat data now commit s Hrefs. unfold create_event.
    destruct data as [d |]; [ | exact Hrefs].
    destruct (ce_name d), (ce_sport d), (ce_location d), (ce_max_players d);
      try exact Hrefs.
    destruct (parse_event_date fromisoformat (ce_event_date d)); [ | exact Hrefs].
    destruct commit; [ | exact Hrefs].
    cbv zeta. cbn [snd]. intros p Hin. cbn [add_event participants] in Hin.
    destruct (Hrefs p Hin) as [e He]. exists e.
    apply get_event_add_some; [reflexivity | exact He].
Qed.

Lemma one_event_refs_ok (max_players : Z) : refs_ok (one_event max_players).
Proof. intros p []. Qed.

(** A join, a creation and a leave on a fresh store. *)
Lemma refs_ok_kept_witness :
  refs_ok (run [Leave 1 (Some (mkLeaveBody (Some 5))) Committed]
               (snd (create_event accept_iso (Some (new_game 10)) "2024-05-02T09:00:00"
                       Committed
                       (run [Join 1 (Some (join_as 5 "Ann")) Committed] (one_event 2))))).
Proof.
  destruct refs_ok_kept as [Hrun Hcreate].
  apply Hrun. apply Hcreate. apply Hrun. apply one_event_refs_ok.
Defined.

Lemma no_rows_of_fresh_event (s : Store) :
  refs_ok s ->
  event_participants s (fresh_id (map e_id (events s))) = [].
Proof.
  intros Hrefs. unfold event_participants. apply filter_none.
  intros p Hin. apply Z.eqb_neq. intros Heq.
  destruct (Hrefs p Hin) as [e He].
  pose proof (get_event_id _ _ _ He) as Hid.
  apply find_some in He. destruct He as [He _].
  pose proof (fresh_id_above (map e_id (events s)) (e_id e)
                             (in_map e_id (events s) e He)). lia.
Qed.

Lemma membership_rows_of_event (s : Store) (event_id uid : Z) :
  membership_rows s event_id uid
  = filter (fun p => opt_Z_eqb (p_user_id p) (Some uid)) (event_participants s event_id).
Proof.
  unfold membership_rows, event_participants.
  induction (participants s) as [| p l IH]; simpl; [reflexivity | ].
  destruct (p_event_id p =? event_id); simpl; [ | exact IH].
  destruct (opt_Z_eqb (p_user_id p) (Some uid)); rewrite IH; reflexivity.
Qed.

(** X22: a created event starts empty and open: in a store without
    orphaned rows, an event created with [max_players] of at least one has
    no participant, and the first valid join to it succeeds, the commits
    going through. *)
Theorem created_event_accepts_first_join :
  forall fromisoformat d now s name sport location max_players event_date jd,
    refs_ok s ->
    ce_name d = Some name ->
    ce_sport d = Some sport ->
    ce_location d = Some location ->
    ce_max_players d = Some max_players ->
    parse_event_date fromisoformat (ce_event_date d) = Some event_date ->
    1 <= max_players ->
    truthy_name (jb_player_name jd) = true ->
    participants_count (snd (create_event fromisoformat (Some d) now Committed s))
                       (fresh_id (map e_id (events s))) = 0 /\
    exists ev,
      fst (join_event (fresh_id (map e_id (events s))) (Some jd) Committed
             (snd (create_event fromisoformat (Some d) now Committed s)))
      = (message_event "Successfully joined event" ev, 200) /\
      d_participants_count ev = 1 /\
      e_max_players (d_event ev) = max_players.
Proof.
  intros fromisoformat d now s name sport location max_players event_date jd
         Hrefs Hn Hs Hl Hm Hdate Hmax Hname.
  pose proof (no_rows_of_fresh_event s Hrefs) as Hnone.
  unfold create_event. rewrite Hn, Hs, Hl, Hm, Hdate. cbv zeta. cbn [snd].
  set (e := mkEvent (fresh_id (map e_id (events s))) name sport location (ce_notes d)
                    max_players event_date (ce_latitude d) (ce_longitude d)
                    (ce_skill_level d) (ce_host_user_id d) now).
  assert (Hcount : participants_count (add_event e s) (fresh_id (map e_id (events s))) = 0).
  { unfold participants_count, event_participants, add_event. cbn [participants].
    unfold event_participants in Hnone. rewrite Hnone. reflexivity. }
  split; [exact Hcount | ].
  assert (Hget : get_event (add_event e s) (fresh_id (map e_id (events s))) = Some e).
  { apply (get_event_add_new s e). reflexivity. }
  rewrite (join_event_new_row _ jd (add_event e s) e Hname Hget).
  - cbv zeta. eexists. split; [reflexivity | ]. split; [ | reflexivity].
    cbn [to_dict d_participants_count]. rewrite participants_count_add.
    cbn [p_event_id e_id e]. rewrite Z.eqb_refl, Hcount. reflexivity.
  - rewrite Hcount. cbn [e_max_players e]. lia.
  - intros uid _. rewrite membership_rows_of_event.
    unfold event_participants, add_event. cbn [participants].
    unfold event_participants in Hnone. rewrite Hnone. reflexivity.
Qed.

(** A game for ten is created and Ann joins it. *)
Lemma created_event_accepts_first_join_witness :
  participants_count
    (snd (create_event accept_iso (Some (new_game 10)) "2024-05-02T09:00:00" Committed
            (one_event 2))) (fresh_id (map e_id (events (one_event 2)))) = 0 /\
  exists ev,
    fst (join_event (fresh_id (map e_id (events (one_event 2))))
           (Some (join_as 5 "Ann")) Committed
           (snd (create_event accept_iso (Some (new_game 10)) "2024-05-02T09:00:00"
                   Committed (one_event 2))))
    = (message_event "Successfully joined event" ev, 200) /\
    d_participants_count ev = 1 /\
    e_max_players (d_event ev) = 10.
Proof.
  apply (created_event_accepts_first_join accept_iso (new_game 10) "2024-05-02T09:00:00"
           (one_event 2) "Evening game" "basketball" "IMA gym" 10
           (Some "2024-06-01T18:00:00") (join_as 5 "Ann")).
  - apply one_event_refs_ok.
  - reflexivity.
  - reflexivity.
  - reflexivity.
  - reflexivity.
  - reflexivity.
  - lia.
  - reflexivity.
Defined.

(** ** Listing the participants of an event *)

(** X23: the listing of an event's participants follows a join: before
    a successful join the listing shows the event with its count and its
    rows in table order; after it, the count is one more and the new row,
    with the request's user and name, is last. *)
Theorem join_then_list_participants :
  forall s event_id d e name,
    get_event s event_id = Some e ->
    jb_player_name d = Some name ->
    name <> "" ->
    participants_count s event_id < e_max_players e ->
    (forall uid, jb_user_id d = Some uid -> membership_rows s event_id uid = []) ->
    get_event_participants event_id s
    = (participants_of (mkEventDict e (participants_count s event_id))
                       (event_participants s event_id), 200) /\
    exists p,
      get_event_participants event_id (snd (join_event event_id (Some d) Committed s))
      = (participants_of (mkEventDict e (participants_count s event_id + 1))
                         (event_participants s event_id ++ [p]), 200) /\
      p_event_id p = event_id /\
      p_user_id p = jb_user_id d /\
      p_player_name p = name.
Proof.
  intros s event_id d e name Hget Hname Hne Hroom Hnew.
  pose proof (get_event_id _ _ _ Hget) as Hid.
  assert (Htruthy : truthy_name (jb_player_name d) = true).
  { apply truthy_name_some. exists name. split; assumption. }
  split.
  - unfold get_event_participants. rewrite Hget. unfold to_dict. rewrite Hid. reflexivity.
  - rewrite (join_event_new_row _ _ _ _ Htruthy Hget Hroom Hnew). cbv zeta. cbn [snd].
    set (p := mkParticipant (fresh_id (map p_id (participants s))) event_id (jb_user_id d)
                            match jb_player_name d with Some n => n | None => "" end
                            match jb_team d with Some t => t | None => Some "team_a" end).
    exists p. split; [ | split; [reflexivity | split; [reflexivity | ]]].
    + unfold get_event_participants.
      rewrite (get_event_same_events s) by reflexivity. rewrite Hget.
      unfold to_dict. rewrite Hid, participants_count_add.
      unfold event_participants at 1. unfold add_participant. cbn [participants].
      rewrite filter_app. cbn [filter p_event_id p]. rewrite Z.eqb_refl. reflexivity.
    + cbn [p_player_name p]. rewrite Hname. reflexivity.
Qed.

(** Bob joins the event Ann is in. *)
Lemma join_then_list_participants_witness :
  let s := mkStore [pickup 2] [member 1 1 5 "Ann"] [] in
  get_event_participants 1 s
  = (participants_of (mkEventDict (pickup 2) (participants_count s 1))
                     (event_participants s 1), 200) /\
  exists p,
    get_event_participants 1 (snd (join_event 1 (Some (join_as 6 "Bob")) Committed s))
    = (participants_of (mkEventDict (pickup 2) (participants_count s 1 + 1))
                       (event_participants s 1 ++ [p]), 200) /\
    p_event_id p = 1 /\
    p_user_id p = jb_user_id (join_as 6 "Bob") /\
    p_player_name p = "Bob".
Proof.
  apply (join_then_list_participants (mkStore [pickup 2] [member 1 1 5 "Ann"] []) 1
           (join_as 6 "Bob") (pickup 2) "Bob").
  - reflexivity.
  - reflexivity.
  - discriminate.
  - vm_compute. reflexivity.
  - intros uid Hu. injection Hu as <-. reflexivity.
Defined.

(** ** A user's events *)

Lemma user_rows_in (s : Store) (uid : Z) (p : EventParticipant) :
  In p (user_rows s uid) <-> In p (participants s) /\ p_user_id p = Some uid.
Proof.
  unfold user_rows. rewrite filter_In. unfold opt_Z_eqb.
  destruct (p_user_id p) as [u |].
  - rewrite Z.eqb_eq. intuition congruence.
  - intuition congruence.
Qed.

Lemma NoDup_flat_map_events (s : Store) (ids : list Z) :
  NoDup ids ->
  NoDup (flat_map (fun eid => match get_event s eid with
                              | Some e => [to_dict s e]
                              | None => []
                              end) ids).
Proof.
  induction ids as [| a ids IH]; intros Hnd; [constructor | ].
  apply NoDup_cons_iff in Hnd. destruct Hnd as [Ha Hnd].
  cbn [flat_map]. apply NoDup_app.
  - destruct (get_event s a); [constructor; [intros [] | constructor] | constructor].
  - apply IH. exact Hnd.
  - intros ed Hed Hin.
    destruct (get_event s a) as [e |] eqn:Hget; [ | contradiction].
    destruct Hed as [<- | []].
    apply in_flat_map in Hin. destruct Hin as [b [Hb Hin]].
    destruct (get_event s b) as [e' |] eqn:Hget'; [ | contradiction].
    destruct Hin as [Heq | []].
    apply (f_equal d_event) in Heq. cbn [to_dict d_event] in Heq. subst e'.
    apply Ha. rewrite <- (get_event_id _ _ _ Hget), (get_event_id _ _ _ Hget'). exact Hb.
Qed.

(** X24: [GET /me/events] refuses a missing user id and the id 0 with
    400; for any other id it is answered 200 with the events the user
    hosts, in table order, and with the events of the table the user has a
    row in, each of them once whatever the number of rows. *)
Theorem my_events_lists_memberships :
  forall set_iter,
    set_order set_iter ->
    forall user_id s,
      (snd (my_events set_iter user_id s) = 400 <-> user_id = None \/ user_id = Some 0) /\
      (forall uid,
          user_id = Some uid -> uid <> 0 ->
          exists joined,
            my_events set_iter user_id s
            = (my_events_of joined
                 (map (to_dict s)
                      (filter (fun e => opt_Z_eqb (e_host_user_id e) (Some uid)) (events s))),
               200) /\
            NoDup joined /\
            (forall ed,
                In ed joined <->
                exists p e,
                  In p (participants s) /\ p_user_id p = Some uid /\
                  get_event s (p_event_id p) = Some e /\ ed = to_dict s e)).
Proof.
  intros set_iter Hset user_id s. split.
  - unfold my_events. destruct user_id as [uid |].
    + destruct (uid =? 0) eqn:H0; cbn [snd].
      * apply Z.eqb_eq in H0. subst uid. split; auto.
      * apply Z.eqb_neq in H0. split; [discriminate | ].
        intros [H | H]; [discriminate | ]. injection H as ->. contradiction H0. reflexivity.
    + cbn [snd]. split; auto.
  - intros uid -> Hne. unfold my_events.
    apply Z.eqb_neq in Hne. rewrite Hne. cbv zeta.
    eexists. split; [reflexivity | ].
    destruct (Hset (map p_event_id (user_rows s uid))) as [Hnd Hmem].
    split; [apply NoDup_flat_map_events; exact Hnd | ].
    intros ed. rewrite in_flat_map. split.
    + intros [eid [Heid Hed]].
      apply Hmem, in_map_iff in Heid. destruct Heid as [p [Hpe Hp]].
      apply user_rows_in in Hp. destruct Hp as [Hp Hu].
      destruct (get_event s eid) as [e |] eqn:Hget; [ | contradiction].
      destruct Hed as [<- | []].
      exists p, e. rewrite Hpe. auto.
    + intros (p & e & Hp & Hu & Hget & ->).
      exists (p_event_id p). split.
      * apply Hmem, in_map. apply user_rows_in. auto.
      * rewrite Hget. left. reflexivity.
Qed.

Lemma insertion_order_set : set_order insertion_order.
Proof.
  intros l. unfold insertion_order. split.
  - apply NoDup_nodup.
  - intros x. apply nodup_In.
Qed.

(** The events of Ann, who is in two events, and of user 0. *)
Lemma my_events_lists_memberships_witness :
  (snd (my_events insertion_order (Some 0) two_events) = 400 <->
   Some 0 = None \/ Some 0 = Some 0) /\
  exists joined,
    my_events insertion_order (Some 5) two_events
    = (my_events_of joined
         (map (to_dict two_events)
              (filter (fun e => opt_Z_eqb (e_host_user_id e) (Some 5)) (events two_events))),
       200) /\
    NoDup joined /\
    (forall ed,
        In ed joined <->
        exists p e,
          In p (participants two_events) /\ p_user_id p = Some 5 /\
          get_event two_events (p_event_id p) = Some e /\ ed = to_dict two_events e).
Proof.
  split.
  - apply (my_events_lists_memberships insertion_order insertion_order_set
             (Some 0) two_events).
  - apply (proj2 (my_events_lists_memberships insertion_order insertion_order_set
                    (Some 5) two_events) 5); [reflexivity | discriminate].
Defined.

Lemma filter_andb {A : Type} (f g : A -> bool) (l : list A) :
  filter (fun x => f x && g x) l = filter f (filter g l).
Proof.
  induction l as [| a l IH]; simpl; [reflexivity | ].
  destruct (g a); simpl; destruct (f a); simpl; rewrite IH; reflexivity.
Qed.

Lemma filter_length_pos {A : Type} (f : A -> bool) (l : list A) (b : A) :
  In b l -> f b = true -> (1 <= length (filter f l))%nat.
Proof.
  induction l as [| a l IH]; intros Hin Hf; [contradiction | ].
  simpl. destruct Hin as [-> | Hin].
  - rewrite Hf. simpl. lia.
  - specialize (IH Hin Hf). destruct (f a); simpl; lia.
Qed.

Lemma NoDup_event_ids (l : list EventParticipant) :
  (forall k : Z, (length (filter (fun p => (p_event_id p =? k)%Z) l) <= 1)%nat) ->
  NoDup (map p_event_id l).
Proof.
  induction l as [| a l IH]; intros H; simpl; constructor.
  - intros Hin. apply in_map_iff in Hin. destruct Hin as [b [Hb Hin]].
    specialize (H (p_event_id a)). simpl in H. rewrite Z.eqb_refl in H. simpl in H.
    pose proof (filter_length_pos (fun p => p_event_id p =? p_event_id a) l b Hin) as Hpos.
    cbv beta in Hpos. rewrite Hb, Z.eqb_refl in Hpos. specialize (Hpos eq_refl). lia.
  - apply IH. intros k. specialize (H k). simpl in H.
    destruct (p_event_id a =? k); simpl in H; lia.
Qed.

Lemma flat_map_length_one {A B : Type} (g : A -> list B) (l : list A) :
  (forall x, In x l -> length (g x) = 1%nat) ->
  length (flat_map g l) = length l.
Proof.
  induction l as [| a l IH]; intros H; [reflexivity | ].
  cbn [flat_map]. rewrite length_app, (H a (or_introl eq_refl)), IH; [reflexivity | ].
  intros x Hx. apply H. right. exact Hx.
Qed.

(** X25: the two views of a user agree: in a store with unique
    memberships and without orphaned rows, the [events_count] that
    [GET /users/nearby] shows for a user is the number of events that
    [GET /me/events] lists as joined. *)
Theorem events_count_matches_joined :
  forall set_iter,
    set_order set_iter ->
    forall users s u,
      membership_unique s ->
      refs_ok s ->
      In u users ->
      u_id u <> 0 ->
      exists joined hosted,
        my_events set_iter (Some (u_id u)) s = (my_events_of joined hosted, 200) /\
        In (u, Z.of_nat (length joined)) (fst (users_nearby users s)) /\
        snd (users_nearby users s) = 200.
Proof.
  intros set_iter Hset users s u Huniq Hrefs Hin Hne.
  unfold my_events. apply Z.eqb_neq in Hne. rewrite Hne. cbv zeta.
  do 2 eexists. split; [reflexivity | ]. split; [ | reflexivity].
  unfold users_nearby. cbn [fst].
  apply in_map_iff. exists u. split; [ | exact Hin].
  f_equal. f_equal.
  set (rows := user_rows s (u_id u)).
  destruct (Hset (map p_event_id rows)) as [Hnd Hmem].
  rewrite flat_map_length_one.
  - rewrite <- (length_map p_event_id rows).
    apply Permutation_length. apply NoDup_Permutation.
    + apply NoDup_event_ids. intros k.
      specialize (Huniq k (u_id u)).
      unfold membership_rows in Huniq. rewrite filter_andb in Huniq. exact Huniq.
    + exact Hnd.
    + intros x. symmetry. apply Hmem.
  - intros eid Heid. apply Hmem, in_map_iff in Heid.
    destruct Heid as [p [Hpe Hp]]. apply user_rows_in in Hp.
    destruct (Hrefs p (proj1 Hp)) as [e He]. rewrite <- Hpe, He. reflexivity.
Qed.

Lemma two_events_unique : membership_unique two_events.
Proof.
  intros event_id uid. unfold membership_rows, two_events, member.
  cbn [participants filter p_event_id p_user_id opt_Z_eqb].
  destruct (1 =? event_id) eqn:H1, (2 =? event_id) eqn:H2, (5 =? uid);
    cbn [andb length]; lia.
Qed.

Lemma two_events_refs_ok : refs_ok two_events.
Proof.
  intros p [<- | [<- | []]].
  - exists (pickup 2). reflexivity.
  - exists (located 2 None). reflexivity.
Qed.

(** Ann, user 5, is in two events. *)
Lemma events_count_matches_joined_witness :
  exists joined hosted,
    my_events insertion_order (Some 5) two_events = (my_events_of joined hosted, 200) /\
    In (mkUser 5 "ann" "ann@uw.edu" None None, Z.of_nat (length joined))
       (fst (users_nearby [mkUser 5 "ann" "ann@uw.edu" None None] two_events)) /\
    snd (users_nearby [mkUser 5 "ann" "ann@uw.edu" None None] two_events) = 200.
Proof.
  apply (events_count_matches_joined insertion_order insertion_order_set
           [mkUser 5 "ann" "ann@uw.edu" None None] two_events
           (mkUser 5 "ann" "ann@uw.edu" None None)).
  - apply two_events_unique.
  - apply two_events_refs_ok.
  - left. reflexivity.
  - discriminate.
Defined.

(** ** The distance calculator in double arithmetic *)

Section HaversineDoubleFacts.
Local Open Scope float_scope.

Lemma math_1_returns (f : float -> float) (x r : float) :
  f x = r -> is_nan r = false -> is_infinity r = false ->
  math_1 f x = Some r.
Proof.
  intros Hf Hnan Hinf. unfold math_1. rewrite Hf. cbv zeta.
  rewrite Hnan, Hinf. reflexivity.
Qed.

Lemma math_1_raises (f : float -> float) (x : float) :
  is_nan (f x) = true -> is_nan x = false -> math_1 f x = None.
Proof.
  intros Hnan Hx. unfold math_1. cbv zeta. rewrite Hnan, Hx. reflexivity.
Qed.

Lemma float_pow2_returns (libm_pow : float -> float -> float) (x r : float) :
  is_nan x = false -> is_infinity x = false -> (x =? 0) = false ->
  (abs x =? 1) = false ->
  libm_pow (abs x) 2 = r -> is_infinity r = false ->
  float_pow2 libm_pow x = Some r.
Proof.
  intros Hnan Hinf H0 H1 Hpow Hr. unfold float_pow2.
  rewrite Hnan, Hinf, H0. cbv zeta. rewrite H1, Hpow, Hr. reflexivity.
Qed.

Lemma float_pow2_unit (libm_pow : float -> float -> float) (x : float) :
  is_nan x = false -> is_infinity x = false -> (x =? 0) = false ->
  (abs x =? 1) = true ->
  float_pow2 libm_pow x = Some 1.
Proof.
  intros Hnan Hinf H0 H1. unfold float_pow2.
  rewrite Hnan, Hinf, H0. cbv zeta. rewrite H1. reflexivity.
Qed.

(** C7: the calculator has an error case.  For the almost antipodal
    points (-67.13870047726789, 113.96267148368122) and
    (67.13870047716789, -66.03732851631888), with the values the C
    library returns for the two sines, the two cosines and the square,
    the term [a] of line 41 is 1.0000000000000004, its square root
    1.0000000000000002 is outside the domain of [asin], and the call
    raises [ValueError] instead of returning a distance. *)
Theorem haversine_km_double_raises :
  forall (libm_sin libm_cos libm_asin : float -> float)
         (libm_pow : float -> float -> float),
    libm_sin 0x1.2bfa8511d7c48p+0 = 0x1.d7c8093f16a3bp-1 ->
    libm_pow 0x1.d7c8093f16a3bp-1 2 = 0x1.b2b8d72a4c1bap-1 ->
    libm_cos (-0x1.2bfa8511d8ba1p+0) = 0x1.8dd36020e1006p-2 ->
    libm_cos 0x1.2bfa8511d6cedp+0 = 0x1.8dd36020e8130p-2 ->
    libm_sin (-0x1.921fb54442d1dp+0) = -1 ->
    is_nan (libm_asin 0x1.0000000000001p+0) = true ->
    haversine_km_double libm_sin libm_cos libm_asin libm_pow
      (-0x1.0c8e077f77388p+6) 0x1.c7d9c68daccf8p+6
      0x1.0c8e077f7580bp+6 (-0x1.082639725330fp+6)
    = None.
Proof.
  intros libm_sin libm_cos libm_asin libm_pow Hs1 Hp1 Hc1 Hc2 Hs2 Hasin.
  unfold haversine_km_double, math_sin, math_cos, math_asin, math_sqrt.
  cbv zeta.
  change (math_radians (0x1.0c8e077f7580bp+6 - -0x1.0c8e077f77388p+6) / 2)
    with 0x1.2bfa8511d7c48p+0.
  rewrite (math_1_returns libm_sin 0x1.2bfa8511d7c48p+0 0x1.d7c8093f16a3bp-1
             Hs1 eq_refl eq_refl).
  cbn [bind].
  rewrite (float_pow2_returns libm_pow 0x1.d7c8093f16a3bp-1 0x1.b2b8d72a4c1bap-1
             eq_refl eq_refl eq_refl eq_refl Hp1 eq_refl).
  cbn [bind].
  change (math_radians (-0x1.0c8e077f77388p+6)) with (-0x1.2bfa8511d8ba1p+0).
  rewrite (math_1_returns libm_cos (-0x1.2bfa8511d8ba1p+0) 0x1.8dd36020e1006p-2
             Hc1 eq_refl eq_refl).
  cbn [bind].
  change (math_radians 0x1.0c8e077f7580bp+6) with 0x1.2bfa8511d6cedp+0.
  rewrite (math_1_returns libm_cos 0x1.2bfa8511d6cedp+0 0x1.8dd36020e8130p-2
             Hc2 eq_refl eq_refl).
  cbn [bind].
  change (math_radians (-0x1.082639725330fp+6 - 0x1.c7d9c68daccf8p+6) / 2)
    with (-0x1.921fb54442d1dp+0).
  rewrite (math_1_returns libm_sin (-0x1.921fb54442d1dp+0) (-1) Hs2 eq_refl eq_refl).
  cbn [bind].
  rewrite (float_pow2_unit libm_pow (-1) eq_refl eq_refl eq_refl eq_refl). cbn [bind].
  change (0x1.b2b8d72a4c1bap-1 + 0x1.8dd36020e1006p-2 * 0x1.8dd36020e8130p-2 * 1)
    with 0x1.0000000000002p+0.
  rewrite (math_1_returns PrimFloat.sqrt 0x1.0000000000002p+0 0x1.0000000000001p+0
             eq_refl eq_refl eq_refl).
  cbn [bind].
  rewrite (math_1_raises libm_asin 0x1.0000000000001p+0 Hasin eq_refl). reflexivity.
Qed.

(** A C library that has the six values. *)
Lemma haversine_km_double_raises_witness :
  haversine_km_double
    (fun x => if x <? 0 then -1 else 0x1.d7c8093f16a3bp-1)
    (fun x => if x <? 0 then 0x1.8dd36020e1006p-2 else 0x1.8dd36020e8130p-2)
    (fun x => if 1 <? abs x then nan else x)
    (fun _ _ => 0x1.b2b8d72a4c1bap-1)
    (-0x1.0c8e077f77388p+6) 0x1.c7d9c68daccf8p+6
    0x1.0c8e077f7580bp+6 (-0x1.082639725330fp+6)
  = None.
Proof.
  apply haversine_km_double_raises; reflexivity.
Defined.

End HaversineDoubleFacts.

(** ** Follow requests with a follower id that is a string *)

(** On an integer the handler is [follow_user] as embedded above. *)
Lemma follow_user_json_number (user_id z : Z) (commit : commit_result) (s : Store) :
  follow_user_json user_id (Some (id_number z)) commit s
  = follow_user user_id (Some (mkFollowBody (Some z))) commit s.
Proof. reflexivity. Qed.

(** C8: the self-follow guard misses a follower id sent as a string.
    [POST /users/2/follow] with the body [{"follower_id": "2"}] on a store
    without Follow rows passes the guard of line 217, is answered 200
    'Followed' and stores the row (2, 2), so that the Follow table no
    longer satisfies [follower_id <> followee_id]; the same request with
    the integer 2 is refused with 400. *)
Theorem follow_self_by_string_accepted :
  follow_user_json 2 (Some (id_string 2)) Committed (mkStore [] [] [])
  = ((message "Followed", 200), mkStore [] [] [mkFollow 1 2 2]) /\
  ~ follows_ok (mkStore [] [] [mkFollow 1 2 2]) /\
  follow_user_json 2 (Some (id_number 2)) Committed (mkStore [] [] [])
  = ((error "cannot follow self", 400), mkStore [] [] []).
Proof.
  split; [reflexivity | split; [ | reflexivity]].
  intros [Hirr _]. apply (Hirr (mkFollow 1 2 2)).
  - left. reflexivity.
  - reflexivity.
Qed.
